(** * quicko3 [tools.py]: listing, date filtering, NDJSON decoding and
      record splitting, as a shallow embedding.

    Python values are modelled as follows.
    - A [dict] with string keys is a [gmap string _]; the properties below
      only depend on which keys are bound to which values.
    - A call that may raise returns a [res]: [Ok v] or [Raise e].
    - A function that mutates its argument returns the argument's final
      state next to its result.
    - A generator is a record holding its suspended frame, with [next] and
      [close] as transition functions. *)

From Stdlib Require Import ZArith Lia Ascii String Floats.PrimFloat.
From stdpp Require Import base strings gmap list.

#[local] Set Warnings "-register-all,-clear-no-such-hyp".
#[local] Open Scope Z_scope.

(** ** Exceptions and results *)

Inductive exn :=
| KeyError
| TypeError
| ValueError
| StopIteration
| RuntimeError
| GeneratorExit
| OSError.

Inductive res (A : Type) :=
| Ok (a : A)
| Raise (e : exn).
Arguments Ok {A} a.
Arguments Raise {A} e.

#[global] Instance res_ret : MRet res := λ A a, Ok a.
#[global] Instance res_bind : MBind res := λ A B f m,
  match m with
  | Ok a => f a
  | Raise e => Raise e
  end.

(** ** JSON values, as [json.loads] builds them *)

Inductive json :=
| JNull
| JBool (b : bool)
| JInt (n : Z)
| JFloat (f : float)
| JString (s : string)
| JArray (l : list json)
| JObject (m : gmap string json).

(** [v is None] *)
Definition is_none (v : json) : bool :=
  match v with
  | JNull => true
  | _ => false
  end.

(** [k in d] and [d[k]] on a dict. *)
Definition dict_contains {A} (d : gmap string A) (k : string) : bool :=
  match d !! k with
  | Some _ => true
  | None => false
  end.

Definition getitem {A} (d : gmap string A) (k : string) : res A :=
  match d !! k with
  | Some v => Ok v
  | None => Raise KeyError
  end.

(** ** RecordSplitter: [split_record] *)

Module Splitter.

Definition default_coordinates : json :=
  JObject {[ "latitude" := JFloat 0%float; "longitude" := JFloat 0%float ]}.

Definition mes_keys : list string :=
  ["parameter"; "value"; "unit"; "averagingPeriod"; "date"; "sourceName"].

Definition stat_keys : list string :=
  ["location"; "city"; "coordinates"; "country"; "sourceName"].

(** The three outputs, in the order the source returns them. *)
Record parts := Parts {
  station : gmap string json;
  measurement : gmap string json;
  ext : gmap string json
}.

(** [split_record record] returns the final state of the dict that was
    passed in (the source assigns into [record]) and the three new dicts. *)
Definition split_record (record : gmap string json)
  : res (gmap string json * parts) :=
  let record :=
    if negb (dict_contains record "coordinates")
    then <["coordinates" := default_coordinates]> record
    else record in
  c ← getitem record "coordinates";
  let record :=
    if is_none c
    then <["coordinates" := default_coordinates]> record
    else record in
  let record :=
    if negb (dict_contains record "averagingPeriod")
    then <["averagingPeriod" := JString ""]> record
    else record in
  let measurement := filter (λ kv, kv.1 ∈ mes_keys) record in
  let station := filter (λ kv, kv.1 ∈ stat_keys) record in
  let ext := filter (λ kv, kv.1 ∉ mes_keys ++ stat_keys) record in
  Ok (record, Parts station measurement ext).

(** The value [coordinates] ends up with, and the same for
    [averagingPeriod]. *)
Definition coordinates_of (record : gmap string json) : json :=
  match record !! "coordinates" with
  | None | Some JNull => default_coordinates
  | Some c => c
  end.

Definition averaging_period_of (record : gmap string json) : json :=
  default (JString "") (record !! "averagingPeriod").

Definition defaulted (record : gmap string json) : gmap string json :=
  <["averagingPeriod" := averaging_period_of record]>
    (<["coordinates" := coordinates_of record]> record).

(** The call leaves its argument as it found it. *)
Definition leaves_argument_unchanged (record : gmap string json) : Prop :=
  ∀ record' out, split_record record = Ok (record', out) → record' = record.

End Splitter.

(** ** DateFilter: [filter_objects] and [filter_prefixes] *)

Module Dates.

(** A [datetime]: the wall-clock reading in microseconds since
    0001-01-01T00:00:00, and the UTC offset of its [tzinfo] in microseconds
    ([None] for a naive value). *)
Record datetime := DateTime {
  wall : Z;
  tzinfo : option Z
}.

(** [pytz.utc.localize dt] *)
Definition localize (dt : datetime) : res datetime :=
  match tzinfo dt with
  | Some _ => Raise ValueError
  | None => Ok (DateTime (wall dt) (Some 0))
  end.

(** [a <= b] on datetimes: two naive values compare by wall clock, two aware
    values by instant, a naive and an aware value do not compare. *)
Definition dt_le (a b : datetime) : res bool :=
  match tzinfo a, tzinfo b with
  | None, None => Ok (bool_decide (wall a ≤ wall b))
  | Some oa, Some ob => Ok (bool_decide (wall a - oa ≤ wall b - ob))
  | _, _ => Raise TypeError
  end.

(** The chained comparison [a <= b <= c]: the second test runs only when the
    first holds. *)
Definition between (a b c : datetime) : res bool :=
  lo ← dt_le a b;
  if lo : bool then dt_le b c else Ok false.

(** Draining a generator expression [(x for x in l if cond x)]: the values
    it yields, or the exception that ends the iteration. *)
Fixpoint genexpr {A} (cond : A → res bool) (l : list A) : res (list A) :=
  match l with
  | [] => Ok []
  | x :: l =>
      keep ← cond x;
      rest ← genexpr cond l;
      Ok (if keep : bool then x :: rest else rest)
  end.

(** An entry of a listing's [Contents]. *)
Record ObjectDescriptor := {
  Key : string;
  Size : Z;
  ETag : string;
  LastModified : datetime
}.

Definition filter_objects (all_objects : list ObjectDescriptor)
    (start_date end_date : datetime) : res (list ObjectDescriptor) :=
  start_date ←
    match tzinfo start_date with
    | None => localize start_date
    | Some _ => Ok start_date
    end;
  end_date ←
    match tzinfo end_date with
    | None => localize end_date
    | Some _ => Ok end_date
    end;
  genexpr (λ x, between start_date (LastModified x) end_date) all_objects.

(** The instant a bound stands for once a naive one is read as UTC. *)
Definition utc_instant (dt : datetime) : Z :=
  wall dt - default 0 (tzinfo dt).

Definition aware (dt : datetime) : Prop := is_Some (tzinfo dt).

(** *** The pattern [.*/(\d{4}-\d{2}-\d{2})/]

    Strings here are sequences of characters below code point 256, where
    [\d] is one of 0-9. *)

Definition is_digit (c : ascii) : bool :=
  bool_decide (48 ≤ nat_of_ascii c ≤ 57)%nat.

Definition is_newline (c : ascii) : bool :=
  bool_decide (nat_of_ascii c = 10%nat).

Inductive item :=
| Lit (c : ascii)
| Digit.

Definition item_ok (i : item) (c : ascii) : bool :=
  match i with
  | Lit c' => bool_decide (c = c')
  | Digit => is_digit c
  end.

(** The part of the pattern after [.*]. *)
Definition segment_items : list item :=
  [Lit "/"; Digit; Digit; Digit; Digit; Lit "-"; Digit; Digit; Lit "-";
   Digit; Digit; Lit "/"]%char.

Fixpoint match_items (p : list item) (s : string) : bool :=
  match p, s with
  | [], _ => true
  | i :: p, String c s => item_ok i c && match_items p s
  | _ :: _, EmptyString => false
  end.

(** Group 1 when the segment starts at the head of [s]. *)
Definition date_at (s : string) : option string :=
  if match_items segment_items s then Some (substring 1 10 s) else None.

(** The whole pattern anchored at the head of [s]. [.*] is greedy and does
    not cross a newline: the longer run is tried first. *)
Fixpoint match_here (s : string) : option string :=
  match s with
  | EmptyString => date_at s
  | String c s' =>
      if is_newline c then date_at s
      else
        match match_here s' with
        | Some g => Some g
        | None => date_at s
        end
  end.

(** [patt.search(x)], giving [group(1)] of the match. *)
Fixpoint search (s : string) : option string :=
  match match_here s with
  | Some g => Some g
  | None =>
      match s with
      | EmptyString => None
      | String _ s' => search s'
      end
  end.

(** A date segment, as the specification has it: [\d{4}-\d{2}-\d{2}]. *)
Definition all_digits (s : string) : Prop :=
  Forall (λ c, is_digit c = true) (list_ascii_of_string s).

Definition date_shaped (g : string) : Prop :=
  ∃ y m d : string,
    g = y +:+ "-" +:+ m +:+ "-" +:+ d
    ∧ String.length y = 4%nat ∧ String.length m = 2%nat
    ∧ String.length d = 2%nat
    ∧ all_digits y ∧ all_digits m ∧ all_digits d.

Definition has_date_segment (x : string) : Prop :=
  ∃ (pre g post : string),
    x = pre +:+ "/" +:+ g +:+ "/" +:+ post ∧ date_shaped g.

(** *** The calendar, as in [datetime] *)

Definition is_leap (year : Z) : bool :=
  bool_decide (year mod 4 = 0)
  && (negb (bool_decide (year mod 100 = 0)) || bool_decide (year mod 400 = 0)).

Definition days_in_month (year month : Z) : Z :=
  if bool_decide (month = 2) then (if is_leap year then 29 else 28)
  else if bool_decide (month ∈ [4; 6; 9; 11]) then 30
  else 31.

Definition days_before_year (year : Z) : Z :=
  let y := year - 1 in
  y * 365 + y / 4 - y / 100 + y / 400.

Definition days_before_month (year month : Z) : Z :=
  foldr Z.add 0 (days_in_month year <$> seqZ 1 (month - 1)).

Definition ymd2ord (year month day : Z) : Z :=
  days_before_year year + days_before_month year month + day.

Definition valid_ymd (year month day : Z) : bool :=
  bool_decide (1 ≤ year ≤ 9999)
  && bool_decide (1 ≤ month ≤ 12)
  && bool_decide (1 ≤ day ≤ days_in_month year month).

(** [datetime(year, month, day)] *)
Definition mk_datetime (year month day : Z) : res datetime :=
  if valid_ymd year month day
  then Ok (DateTime ((ymd2ord year month day - 1) * 86400000000) None)
  else Raise ValueError.

Definition digit_value (c : ascii) : Z :=
  Z.of_nat (nat_of_ascii c) - 48.

(** [int(s)] for a string of digits. *)
Definition int_of_digits (s : string) : Z :=
  foldl (λ acc c, 10 * acc + digit_value c) 0 (list_ascii_of_string s).

(** [dateutil.parser.parse] on the strings [filter_prefixes] hands it, which
    all have the shape YYYY-MM-DD: the three numbers are read as year, month
    and day, and the naive datetime at midnight is built from them; numbers
    that are not a calendar date raise [ValueError]. *)
Definition parser_parse (g : string) : res datetime :=
  mk_datetime (int_of_digits (substring 0 4 g))
              (int_of_digits (substring 5 2 g))
              (int_of_digits (substring 8 2 g)).

(** The test of the generator expression in [filter_prefixes]. The source
    runs the search twice on the same string, with the same outcome. *)
Definition prefix_test (start_date end_date : datetime) (x : string)
  : res bool :=
  match search x with
  | None => Ok false
  | Some g => d ← parser_parse g; between start_date d end_date
  end.

Definition filter_prefixes (prefixes : list string)
    (start_date end_date : datetime) : res (list string) :=
  genexpr (prefix_test start_date end_date) prefixes.

(** The three numbers of a segment make a date of the calendar. *)
Definition calendar_date (g : string) : Prop :=
  valid_ymd (int_of_digits (substring 0 4 g))
            (int_of_digits (substring 5 2 g))
            (int_of_digits (substring 8 2 g)) = true.



End Dates.

(** ** Lister: [get_object_list] *)

Module Lister.
Import Dates.

(** The keyword arguments of one [list_objects_v2] call. *)
Record request := {
  Bucket : string;
  Prefix : string;
  Delimiter : string;
  ContinuationToken : option string
}.

(** An entry of a listing's [CommonPrefixes]. *)
Record PrefixEntry := { entry_Prefix : string }.

(** One page. [Contents], [CommonPrefixes] and [NextContinuationToken] are
    keys that may be missing from the response; [IsTruncated] is always
    there. *)
Record response := {
  Contents : option (list ObjectDescriptor);
  CommonPrefixes : option (list PrefixEntry);
  IsTruncated : bool;
  NextContinuationToken : option string
}.

(** What the source asks of a client: one method, which answers a request
    or raises, and may change the client. *)
Class S3Client (C : Type) :=
  list_objects_v2 : C → request → res response * C.

(** The two [if ... in result] blocks, on the accumulators [ret] and
    [prefixes]. *)
Definition accumulate (result : response)
    (acc : list ObjectDescriptor * list string)
  : list ObjectDescriptor * list string :=
  let ret :=
    match Contents result with
    | Some cs => acc.1 ++ cs
    | None => acc.1
    end in
  let prefixes :=
    match CommonPrefixes result with
    | Some ps => acc.2 ++ (entry_Prefix <$> ps)
    | None => acc.2
    end in
  (ret, prefixes).

(** The [while result['IsTruncated']] loop. [fuel] bounds the number of
    iterations; [None] means the bound was reached. *)
Fixpoint while_truncated `{S3Client C} (fuel : nat) (bucket_name prefix : string)
    (client : C) (result : response)
    (acc : list ObjectDescriptor * list string)
  : option (res (list ObjectDescriptor * list string) * C) :=
  if IsTruncated result then
    match fuel with
    | O => None
    | S fuel =>
        match NextContinuationToken result with
        | None => Some (Raise KeyError, client)
        | Some token =>
            let '(r, client) :=
              list_objects_v2 client
                {| Bucket := bucket_name; Prefix := prefix; Delimiter := "/";
                   ContinuationToken := Some token |} in
            match r with
            | Raise e => Some (Raise e, client)
            | Ok result =>
                while_truncated fuel bucket_name prefix client result
                  (accumulate result acc)
            end
        end
    end
  else Some (Ok acc, client).

Definition get_object_list `{S3Client C} (fuel : nat)
    (bucket_name prefix : string) (client : C)
  : option (res (list ObjectDescriptor * list string) * C) :=
  let '(r, client) :=
    list_objects_v2 client
      {| Bucket := bucket_name; Prefix := prefix; Delimiter := "/";
         ContinuationToken := None |} in
  match r with
  | Raise e => Some (Raise e, client)
  | Ok result =>
      while_truncated fuel bucket_name prefix client result
        (accumulate result ([], []))
  end.

(** A simulated client: it answers with the pages of [script] in turn and
    records every request in [log]. *)
Record scripted := {
  script : list response;
  log : list request
}.

#[global] Instance scripted_client : S3Client scripted := λ c req,
  match script c with
  | [] => (Raise OSError, {| script := []; log := log c ++ [req] |})
  | r :: rs => (Ok r, {| script := rs; log := log c ++ [req] |})
  end.

Definition page_objects (r : response) : list ObjectDescriptor :=
  default [] (Contents r).

Definition page_prefixes (r : response) : list string :=
  entry_Prefix <$> default [] (CommonPrefixes r).

(** A page that announces a next one. *)
Definition continues (r : response) : Prop :=
  IsTruncated r = true ∧ is_Some (NextContinuationToken r).

(** A listing as the store serves it: every page but the last announces a
    next one, the last does not. *)
Inductive paged : list response → Prop :=
| paged_last r : IsTruncated r = false → paged [r]
| paged_more r rs : continues r → paged rs → paged (r :: rs).

Definition first_request (bucket_name prefix : string) : request :=
  {| Bucket := bucket_name; Prefix := prefix; Delimiter := "/";
     ContinuationToken := None |}.

Definition next_request (bucket_name prefix : string) (r : response) : request :=
  {| Bucket := bucket_name; Prefix := prefix; Delimiter := "/";
     ContinuationToken := NextContinuationToken r |}.

End Lister.

(** ** StreamDecoder: [get_jsons_from_stream], [get_jsons_from_object] *)

Module Decoder.

(** [s.endswith(suffix)] *)
Definition endswith (s suffix : string) : bool :=
  let n := String.length s in
  let m := String.length suffix in
  bool_decide (m ≤ n)%nat && String.eqb (substring (n - m) m s) suffix.

(** [s.split(sep)] for a one-character separator. *)
Fixpoint split (sep : ascii) (s : string) : list string :=
  match s with
  | EmptyString => [EmptyString]
  | String c s' =>
      if bool_decide (c = sep) then EmptyString :: split sep s'
      else
        match split sep s' with
        | [] => [String c EmptyString]
        | h :: t => String c h :: t
        end
  end.

Definition newline : ascii := ascii_of_nat 10.

(** A readable byte stream, seen through the two ways the decoders read it,
    and whether [close] was called on it. *)
Record stream := {
  gunzip_text : res string;
    (* reader.decode(gzip.decompress(stream.read()))[0] *)
  text_lines : list string;
    (* the lines that iterating codecs.getreader('utf-8')(stream) gives *)
  closed : bool
}.

Definition stream_close (s : stream) : stream :=
  {| gunzip_text := gunzip_text s; text_lines := text_lines s; closed := true |}.

(** The iterable the [for] loop runs over. *)
Definition lines_of (s : stream) (object_name : string) : res (list string) :=
  if endswith object_name ".gz"
  then text ← gunzip_text s; Ok (split newline text)
  else Ok (text_lines s).

(** An exception that leaves a generator's body: a [StopIteration] raised
    inside it reaches the caller as a [RuntimeError]. *)
Definition leaving (e : exn) : exn :=
  match e with
  | StopIteration => RuntimeError
  | e => e
  end.

(** Where a generator is: not started, suspended at its [yield] with the
    lines still to come, or finished. *)
Inductive frame :=
| Created
| AtYield (pending : list string)
| Finished.

Section decoders.

(** The value scanner of the [json] module: on an input that starts with a
    JSON value it gives the value and the rest of the input. *)
Variable scan_once : string → option (json * string).

Definition is_whitespace (c : ascii) : bool :=
  bool_decide (nat_of_ascii c ∈ [32; 9; 10; 13]%nat).

Fixpoint skip_whitespace (s : string) : string :=
  match s with
  | String c s' => if is_whitespace c then skip_whitespace s' else s
  | EmptyString => s
  end.

(** [json.loads]: leading whitespace is skipped, one value is scanned, and
    only whitespace may follow. [None] stands for the exception. *)
Definition json_loads (s : string) : option json :=
  match skip_whitespace s with
  | EmptyString => None
  | s =>
      match scan_once s with
      | None => None
      | Some (v, rest) =>
          match skip_whitespace rest with
          | EmptyString => Some v
          | _ => None
          end
      end
  end.

(** The loop body [try: yield json.loads(line) except: pass], run until the
    next [yield]: the value and the lines left, or [None] when the lines run
    out first. *)
Fixpoint advance (lines : list string) : option (json * list string) :=
  match lines with
  | [] => None
  | line :: rest =>
      match json_loads line with
      | Some v => Some (v, rest)
      | None => advance rest
      end
  end.

(** *** [get_jsons_from_stream] *)

Record stream_gen := {
  sg_frame : frame;
  sg_stream : stream;
  sg_name : string
}.

Definition get_jsons_from_stream (stream : stream) (object_name : string)
  : stream_gen :=
  {| sg_frame := Created; sg_stream := stream; sg_name := object_name |}.

Definition sg_at (g : stream_gen) (f : frame) : stream_gen :=
  {| sg_frame := f; sg_stream := sg_stream g; sg_name := sg_name g |}.

Definition sg_resume (g : stream_gen) (lines : list string)
  : res json * stream_gen :=
  match advance lines with
  | Some (v, rest) => (Ok v, sg_at g (AtYield rest))
  | None => (Raise StopIteration, sg_at g Finished)
  end.

(** [next(g)] *)
Definition sg_next (g : stream_gen) : res json * stream_gen :=
  match sg_frame g with
  | Created =>
      match lines_of (sg_stream g) (sg_name g) with
      | Raise e => (Raise (leaving e), sg_at g Finished)
      | Ok lines => sg_resume g lines
      end
  | AtYield pending => sg_resume g pending
  | Finished => (Raise StopIteration, g)
  end.

(** [list(g)]: [next] until the generator stops. *)
Fixpoint sg_list (fuel : nat) (g : stream_gen)
  : option (res (list json) * stream_gen) :=
  match fuel with
  | O => None
  | S fuel =>
      match sg_next g with
      | (Ok v, g) =>
          match sg_list fuel g with
          | Some (Ok vs, g) => Some (Ok (v :: vs), g)
          | other => other
          end
      | (Raise StopIteration, g) => Some (Ok [], g)
      | (Raise e, g) => Some (Raise e, g)
      end
  end.

(** *** [get_jsons_from_object] *)

(** [client.get_object(Bucket=..., Key=...)['Body']] *)
Definition object_client := string → string → res stream.

Record object_gen := {
  og_frame : frame;
  og_client : object_client;
  og_bucket : string;
  og_name : string;
  og_body : option stream  (* the local [body], once it is bound *)
}.

Definition get_jsons_from_object (bucket object_name : string)
    (client : object_client) : object_gen :=
  {| og_frame := Created; og_client := client; og_bucket := bucket;
     og_name := object_name; og_body := None |}.

Definition og_at (g : object_gen) (f : frame) (body : option stream)
  : object_gen :=
  {| og_frame := f; og_client := og_client g; og_bucket := og_bucket g;
     og_name := og_name g; og_body := body |}.

(** The loop from the current line on; [body.close()] is the statement
    after the loop. *)
Definition og_resume (g : object_gen) (lines : list string)
  : res json * object_gen :=
  match advance lines with
  | Some (v, rest) => (Ok v, og_at g (AtYield rest) (og_body g))
  | None => (Raise StopIteration, og_at g Finished (stream_close <$> og_body g))
  end.

(** [next(g)] *)
Definition og_next (g : object_gen) : res json * object_gen :=
  match og_frame g with
  | Created =>
      match og_client g (og_bucket g) (og_name g) with
      | Raise e => (Raise (leaving e), og_at g Finished None)
      | Ok body =>
          match lines_of body (og_name g) with
          | Raise e => (Raise (leaving e), og_at g Finished (Some body))
          | Ok lines => og_resume (og_at g Created (Some body)) lines
          end
      end
  | AtYield pending => og_resume g pending
  | Finished => (Raise StopIteration, g)
  end.

(** [g.close()], which is also what dropping the last reference to a
    suspended generator does. [GeneratorExit] is raised at the [yield]; that
    [yield] is inside the [try] whose bare [except] swallows it, so the loop
    goes on, and a further [yield] is an error. *)
Definition og_close (g : object_gen) : res unit * object_gen :=
  match og_frame g with
  | Created => (Ok (), og_at g Finished (og_body g))
  | AtYield pending =>
      match advance pending with
      | Some (_, rest) => (Raise RuntimeError, og_at g (AtYield rest) (og_body g))
      | None => (Ok (), og_at g Finished (stream_close <$> og_body g))
      end
  | Finished => (Ok (), g)
  end.

Definition body_released (g : object_gen) : Prop :=
  ∀ body, og_body g = Some body → closed body = true.

End decoders.

(** A scanner for the literals [null], [true], [false] and unsigned
    integers, enough to run the decoders on examples. *)
Fixpoint take_digits (s : string) : string * string :=
  match s with
  | String c s' =>
      if Dates.is_digit c
      then let '(d, r) := take_digits s' in (String c d, r)
      else (EmptyString, s)
  | EmptyString => (EmptyString, EmptyString)
  end.

Definition scan_literals (s : string) : option (json * string) :=
  if String.prefix "null" s then Some (JNull, substring 4 (String.length s - 4) s)
  else if String.prefix "true" s then Some (JBool true, substring 4 (String.length s - 4) s)
  else if String.prefix "false" s then Some (JBool false, substring 5 (String.length s - 5) s)
  else
    match take_digits s with
    | (EmptyString, _) => None
    | (d, r) => Some (JInt (Dates.int_of_digits d), r)
    end.

End Decoder.

(** ** Callers: [get_objects], [get_all_objects_list], [process_file] *)

Module Callers.
Import Splitter Dates Lister Decoder.

Definition BUCKET_NAME : string := "openaq-data".
Definition FETCHES_BUCKET : string := "openaq-fetches".

(** [get_objects(prefix)]: the objects of the listing, the common prefixes
    being dropped. The source lets [get_object_list] make the client; here
    it is passed in. *)
Definition get_objects `{S3Client C} (fuel : nat) (prefix : string) (client : C)
  : option (res (list ObjectDescriptor) * C) :=
  match get_object_list fuel FETCHES_BUCKET prefix client with
  | None => None
  | Some (Raise e, client) => Some (Raise e, client)
  | Some (Ok (objects, _), client) => Some (Ok objects, client)
  end.

(** An element of the [prefixes] argument of [get_all_objects_list]: the
    source subscripts it with ['Prefix'], which a dict answers and a string
    refuses. *)
Inductive prefix_arg :=
| PrefixStr (s : string)
| PrefixDict (d : gmap string string).

(** [prefix['Prefix']] *)
Definition subscript_Prefix (prefix : prefix_arg) : res string :=
  match prefix with
  | PrefixStr _ => Raise TypeError
  | PrefixDict d => getitem d "Prefix"
  end.

(** The [for prefix in prefixes] loop on the accumulator [all_objects];
    [fuel] bounds the pages of each listing. *)
Fixpoint all_objects_loop `{S3Client C} (fuel : nat) (prefixes : list prefix_arg)
    (client : C) (all_objects : list ObjectDescriptor)
  : option (res (list ObjectDescriptor) * C) :=
  match prefixes with
  | [] => Some (Ok all_objects, client)
  | prefix :: prefixes =>
      match subscript_Prefix prefix with
      | Raise e => Some (Raise e, client)
      | Ok p =>
          match get_object_list fuel FETCHES_BUCKET p client with
          | None => None
          | Some (Raise e, client) => Some (Raise e, client)
          | Some (Ok (obj, _), client) =>
              all_objects_loop fuel prefixes client (all_objects ++ obj)
          end
      end
  end.

Definition get_all_objects_list `{S3Client C} (fuel : nat)
    (prefixes : list prefix_arg) (client : C)
  : option (res (list ObjectDescriptor) * C) :=
  all_objects_loop fuel prefixes client [].

(** The requests of one listing. *)
Definition listing_requests (l : string * list response) : list request :=
  first_request FETCHES_BUCKET l.1
  :: (next_request FETCHES_BUCKET l.1 <$> removelast l.2).

(** A client whose every page is truncated and carries a token. *)
Definition endless_page : response :=
  {| Contents := None; CommonPrefixes := None; IsTruncated := true;
     NextContinuationToken := Some "again" |}.

Definition endless_client : S3Client unit := λ c _, (Ok endless_page, c).

(** The arguments of one [mes_dao.store] call. *)
Record measurement_row (Id : Type) := Row {
  row_station_id : Id;
  row_parameter : json;
  row_value : json;
  row_unit : json;
  row_averagingPeriod : json;
  row_date : json
}.
Arguments Row {Id}.
Arguments row_station_id {Id}.
Arguments row_parameter {Id}.
Arguments row_value {Id}.
Arguments row_unit {Id}.
Arguments row_averagingPeriod {Id}.
Arguments row_date {Id}.

(** [v[k]] on a decoded value: a dict answers, anything else refuses a
    string subscript. *)
Definition subscript (v : json) (k : string) : res json :=
  match v with
  | JObject d => getitem d k
  | _ => Raise TypeError
  end.

(** [split_record] on whatever a line decoded to: on anything but a dict,
    the tests and assignments of its first lines end in [TypeError]. The
    record is the generator's fresh value, so only the three outputs are
    kept. *)
Definition split_value (v : json) : res parts :=
  match v with
  | JObject record => r ← split_record record; Ok r.2
  | _ => Raise TypeError
  end.

Section pipeline.

Variable scan_once : string → option (json * string).

(** The two stores, each with a state of its own: [store_from_json] gives
    the station's id; either call may raise. *)
Context {S M Id : Type}.
Variable store_from_json : S → gmap string json → res Id * S.
Variable store : M → measurement_row Id → res unit * M.

(** The arguments of [mes_dao.store], evaluated left to right. *)
Definition store_arguments (stat_id : Id) (measurement : gmap string json)
  : res (measurement_row Id) :=
  parameter ← getitem measurement "parameter";
  value ← getitem measurement "value";
  unit ← getitem measurement "unit";
  averagingPeriod ← getitem measurement "averagingPeriod";
  date ← getitem measurement "date";
  utc ← subscript date "utc";
  Ok (Row stat_id parameter value unit averagingPeriod utc).

(** The body of the loop of [process_file], up to [records += 1]. *)
Definition store_record (record : json) (sdao : S) (mdao : M)
  : res unit * (S * M) :=
  match split_value record with
  | Raise e => (Raise e, (sdao, mdao))
  | Ok out =>
      let '(r, sdao) := store_from_json sdao (station out) in
      match r with
      | Raise e => (Raise e, (sdao, mdao))
      | Ok stat_id =>
          match store_arguments stat_id (measurement out) with
          | Raise e => (Raise e, (sdao, mdao))
          | Ok row =>
              let '(r, mdao) := store mdao row in
              (r, (sdao, mdao))
          end
      end
  end.

(** The [for record in ...] loop. An exception leaves the generator where
    it is. *)
Fixpoint process_loop (fuel : nat) (g : object_gen) (sdao : S) (mdao : M)
    (records : nat) : option (res nat * (object_gen * S * M)) :=
  match fuel with
  | O => None
  | Datatypes.S fuel =>
      match og_next scan_once g with
      | (Raise StopIteration, g) => Some (Ok records, (g, sdao, mdao))
      | (Raise e, g) => Some (Raise e, (g, sdao, mdao))
      | (Ok record, g) =>
          match store_record record sdao mdao with
          | (Raise e, (sdao, mdao)) => Some (Raise e, (g, sdao, mdao))
          | (Ok _, (sdao, mdao)) =>
              process_loop fuel g sdao mdao (records + 1)
          end
      end
  end.

(** [process_file(object_name, station_dao, mes_dao)], with the client the
    generator would make passed in. *)
Definition process_file (fuel : nat) (object_name : string)
    (client : object_client) (station_dao : S) (mes_dao : M)
  : option (res nat * (object_gen * S * M)) :=
  process_loop fuel (get_jsons_from_object FETCHES_BUCKET object_name client)
    station_dao mes_dao 0.

(** [list(g)] for [get_jsons_from_object]. *)
Fixpoint og_list (fuel : nat) (g : object_gen)
  : option (res (list json) * object_gen) :=
  match fuel with
  | O => None
  | Datatypes.S fuel =>
      match og_next scan_once g with
      | (Ok v, g) =>
          match og_list fuel g with
          | Some (Ok vs, g) => Some (Ok (v :: vs), g)
          | other => other
          end
      | (Raise StopIteration, g) => Some (Ok [], g)
      | (Raise e, g) => Some (Raise e, g)
      end
  end.

End pipeline.

(** Stores that keep what they are given: a station's id is its position. *)
Definition keep_station (stations : list (gmap string json))
    (station : gmap string json) : res nat * list (gmap string json) :=
  (Ok (length stations), stations ++ [station]).

Definition keep_row (rows : list (measurement_row nat))
    (row : measurement_row nat) : res unit * list (measurement_row nat) :=
  (Ok (), rows ++ [row]).

(** A record with everything [process_file] reads from it. *)
Definition complete (v : json) : Prop :=
  ∃ record date,
    v = JObject record
    ∧ is_Some (record !! "parameter") ∧ is_Some (record !! "value")
    ∧ is_Some (record !! "unit")
    ∧ record !! "date" = Some (JObject date) ∧ is_Some (date !! "utc").

(** What the stores are to receive for a complete record. *)
Definition field (v : json) (k : string) : json :=
  match v with
  | JObject d => default JNull (d !! k)
  | _ => JNull
  end.

Definition station_of (v : json) : gmap string json :=
  match v with
  | JObject record => filter (λ kv, kv.1 ∈ stat_keys) (defaulted record)
  | _ => ∅
  end.

Definition row_of (stat_id : nat) (v : json) : measurement_row nat :=
  {| row_station_id := stat_id;
     row_parameter := field v "parameter";
     row_value := field v "value";
     row_unit := field v "unit";
     row_averagingPeriod :=
       match v with
       | JObject record => averaging_period_of record
       | _ => JNull
       end;
     row_date := field (field v "date") "utc" |}.

(** The generator of [get_jsons_from_object] once its body is bound. *)
Definition og_with (client : object_client) (bucket object_name : string)
    (f : frame) (body : stream) : object_gen :=
  {| og_frame := f; og_client := client; og_bucket := bucket;
     og_name := object_name; og_body := Some body |}.

(** The rows of the values [vs], the first of which gets the id [start]. *)
Definition rows_of (start : nat) (vs : list json) : list (measurement_row nat) :=
  zip_with row_of (seq start (length vs)) vs.

(** [x] has no newline character. *)
Fixpoint no_newline (x : string) : bool :=
  match x with
  | EmptyString => true
  | String c x => negb (is_newline c) && no_newline x
  end.

End Callers.

(** ** Inputs to run the functions on *)

Module Samples.
Import Splitter Dates Lister Decoder.

(** A record to run [split_record] on: the line of the end-to-end scenario,
    cut down to four fields. *)
Definition sample_record : gmap string json :=
  {[ "parameter" := JString "pm25"; "value" := JInt 27;
     "sourceName" := JString "StateAir_Dhaka"; "mobile" := JBool false ]}.

Definition sample_after : gmap string json :=
  <["averagingPeriod" := JString ""]>
    (<["coordinates" := default_coordinates]> sample_record).

Definition sample_out : parts :=
  {| station :=
       {[ "sourceName" := JString "StateAir_Dhaka";
          "coordinates" := default_coordinates ]};
     measurement :=
       {[ "parameter" := JString "pm25"; "value" := JInt 27;
          "sourceName" := JString "StateAir_Dhaka";
          "averagingPeriod" := JString "" ]};
     ext := {[ "mobile" := JBool false ]} |}.

Definition sample_prefixes : list string :=
  ["realtime/2018-06-07/"; "realtime/"; "realtime/2019-06-07/"].

Definition sample_objects : list ObjectDescriptor :=
  [ {| Key := "realtime/2013-11-27/2013-11-27.ndjson"; Size := 10723;
       ETag := "0214c4d59b099b041aa651c8221aa4f3";
       LastModified := DateTime 100 (Some 0) |};
    {| Key := "realtime/2013-11-28/2013-11-28.ndjson"; Size := 1;
       ETag := "e"; LastModified := DateTime 300 (Some 0) |};
    {| Key := "realtime/2013-11-29/2013-11-29.ndjson"; Size := 2;
       ETag := "f"; LastModified := DateTime 200 (Some 60) |} ].

Definition entry (key : string) : ObjectDescriptor :=
  {| Key := key; Size := 1; ETag := "e"; LastModified := DateTime 0 (Some 0) |}.

Definition page1 : response :=
  {| Contents := Some [entry "realtime/a"; entry "realtime/b"];
     CommonPrefixes := Some [ {| entry_Prefix := "realtime/2018-06-07/" |} ];
     IsTruncated := true; NextContinuationToken := Some "t1" |}.

Definition page2 : response :=
  {| Contents := Some [entry "realtime/c"];
     CommonPrefixes := None;
     IsTruncated := true; NextContinuationToken := Some "t2" |}.

Definition page3 : response :=
  {| Contents := None;
     CommonPrefixes := Some [ {| entry_Prefix := "realtime/2018-06-08/" |} ];
     IsTruncated := false; NextContinuationToken := None |}.

Definition with_newline (s : string) : string := s +:+ String newline EmptyString.

Definition three_lines : stream :=
  {| gunzip_text := Raise OSError;
     text_lines := [with_newline "1"; with_newline "{oops"; with_newline "2"];
     closed := false |}.

Definition gz_body (text : string) : stream :=
  {| gunzip_text := Ok text; text_lines := []; closed := false |}.

Definition two_lines : stream :=
  {| gunzip_text := Raise OSError;
     text_lines := [with_newline "1"; with_newline "2"];
     closed := false |}.

Definition two_lines_gen : object_gen :=
  get_jsons_from_object "openaq-fetches" "realtime/x.ndjson" (λ _ _, Ok two_lines).

End Samples.

Module MoreSamples.
Import Dates Lister Decoder Callers Samples.

(** A scanner that knows the lines of a table, each with its value, and
    falls back on [scan_literals]. *)
Fixpoint scan_table (table : list (string * json)) (s : string)
  : option (json * string) :=
  match table with
  | [] => scan_literals s
  | (text, v) :: table =>
      if String.prefix text s
      then Some (v, substring (String.length text)
                      (String.length s - String.length text) s)
      else scan_table table s
  end.

Definition quoted (s : string) : string :=
  String (ascii_of_nat 34) s +:+ String (ascii_of_nat 34) EmptyString.

(** A line with the fields [process_file] reads, and its value. *)
Definition complete_line : string :=
  "{" +:+ quoted "parameter" +:+ ":" +:+ quoted "pm25" +:+ ","
  +:+ quoted "value" +:+ ":27," +:+ quoted "unit" +:+ ":" +:+ quoted "ppm"
  +:+ "," +:+ quoted "date" +:+ ":{" +:+ quoted "utc" +:+ ":"
  +:+ quoted "2018-06-06T23:00:00.000Z" +:+ "}}".

Definition complete_record : gmap string json :=
  {[ "parameter" := JString "pm25"; "value" := JInt 27;
     "unit" := JString "ppm";
     "date" := JObject {[ "utc" := JString "2018-06-06T23:00:00.000Z" ]} ]}.

(** A line without [parameter], and its value. *)
Definition unit_only_line : string :=
  "{" +:+ quoted "unit" +:+ ":" +:+ quoted "ppm" +:+ "}".

Definition unit_only_record : gmap string json :=
  {[ "unit" := JString "ppm" ]}.

Definition scan_samples : string → option (json * string) :=
  scan_table [(complete_line, JObject complete_record);
              (unit_only_line, JObject unit_only_record)].

Definition body_of (lines : list string) : stream :=
  {| gunzip_text := Raise OSError; text_lines := with_newline <$> lines;
     closed := false |}.

Definition page_without_token : response :=
  {| Contents := Some [entry "realtime/d"]; CommonPrefixes := None;
     IsTruncated := true; NextContinuationToken := None |}.

End MoreSamples.

(** * Properties *)

(** ** RecordSplitter *)

Section splitter_facts.
Import Splitter Samples.
Implicit Types record : gmap string json.

Lemma coordinates_of_not_none record : is_none (coordinates_of record) = false.
Proof.
  unfold coordinates_of.
  destruct (record !! "coordinates") as [[]|]; reflexivity.
Qed.

(** The call always returns, and what it returns is read off [defaulted]. *)
Lemma split_record_eq record :
  split_record record =
    Ok (defaulted record,
        Parts (filter (λ kv, kv.1 ∈ stat_keys) (defaulted record))
              (filter (λ kv, kv.1 ∈ mes_keys) (defaulted record))
              (filter (λ kv, kv.1 ∉ mes_keys ++ stat_keys) (defaulted record))).
Proof.
  assert (Hne : "averagingPeriod" ≠ "coordinates") by discriminate.
  assert (Hdef : ∀ r : gmap string json,
    (if negb (dict_contains r "averagingPeriod")
     then <["averagingPeriod" := JString ""]> r else r)
    = <["averagingPeriod" := averaging_period_of r]> r).
  { intros r. unfold dict_contains, averaging_period_of.
    destruct (r !! "averagingPeriod") eqn:E; simpl; [|done].
    by rewrite insert_id. }
  assert (Hap : ∀ (r : gmap string json) c,
    averaging_period_of (<["coordinates" := c]> r) = averaging_period_of r).
  { intros r c. unfold averaging_period_of. by rewrite lookup_insert_ne. }
  unfold split_record, getitem.
  destruct (record !! "coordinates") as [c|] eqn:E.
  - assert (Hc : dict_contains record "coordinates" = true)
      by (unfold dict_contains; by rewrite E).
    rewrite Hc. cbn [negb]. rewrite E. cbn [mbind res_bind].
    rewrite Hdef. unfold defaulted, coordinates_of. rewrite E.
    destruct c; cbn [is_none]; rewrite ?Hap;
      try (rewrite (insert_id record "coordinates") by done); reflexivity.
  - assert (Hc : dict_contains record "coordinates" = false)
      by (unfold dict_contains; by rewrite E).
    rewrite Hc. cbn [negb]. rewrite lookup_insert_eq. cbn [mbind res_bind].
    rewrite Hdef. unfold defaulted, coordinates_of. rewrite E.
    cbn [is_none default_coordinates]. by rewrite Hap.
Qed.

Lemma split_record_inv record record' out :
  split_record record = Ok (record', out) →
  record' = defaulted record
  ∧ station out = filter (λ kv, kv.1 ∈ stat_keys) (defaulted record)
  ∧ measurement out = filter (λ kv, kv.1 ∈ mes_keys) (defaulted record)
  ∧ ext out = filter (λ kv, kv.1 ∉ mes_keys ++ stat_keys) (defaulted record).
Proof. rewrite split_record_eq. intros H. by inversion H. Qed.

Lemma defaulted_lookup record k :
  defaulted record !! k =
    if decide (k = "averagingPeriod") then Some (averaging_period_of record)
    else if decide (k = "coordinates") then Some (coordinates_of record)
    else record !! k.
Proof.
  unfold defaulted.
  destruct (decide (k = "averagingPeriod")) as [->|].
  - by rewrite lookup_insert_eq.
  - rewrite lookup_insert_ne by done.
    destruct (decide (k = "coordinates")) as [->|].
    + by rewrite lookup_insert_eq.
    + by rewrite lookup_insert_ne.
Qed.

Lemma dom_defaulted record :
  dom (defaulted record) = dom record ∪ {["coordinates"; "averagingPeriod"]}.
Proof. unfold defaulted. rewrite !dom_insert_L. set_solver. Qed.

Lemma lookup_filter_in (keys : list string) (m : gmap string json) k :
  filter (λ kv, kv.1 ∈ keys) m !! k = if decide (k ∈ keys) then (m !! k) else None.
Proof.
  rewrite map_lookup_filter.
  destruct (m !! k) as [v|]; simpl.
  - destruct (decide (k ∈ keys)).
    + by rewrite option_guard_True.
    + by rewrite option_guard_False.
  - by destruct (decide (k ∈ keys)).
Qed.

Lemma lookup_filter_notin (keys : list string) (m : gmap string json) k :
  filter (λ kv, kv.1 ∉ keys) m !! k = if decide (k ∈ keys) then None else (m !! k).
Proof.
  rewrite map_lookup_filter.
  destruct (m !! k) as [v|]; simpl.
  - destruct (decide (k ∈ keys)).
    + by rewrite option_guard_False by (simpl; tauto).
    + by rewrite option_guard_True.
  - by destruct (decide (k ∈ keys)).
Qed.

Lemma elem_of_dom_filter_in (keys : list string) (m : gmap string json) k :
  k ∈ dom (filter (λ kv, kv.1 ∈ keys) m) ↔ k ∈ keys ∧ k ∈ dom m.
Proof.
  rewrite !elem_of_dom, lookup_filter_in.
  case_decide; [naive_solver|].
  split; [by intros [? ?]|naive_solver].
Qed.

Lemma elem_of_dom_filter_notin (keys : list string) (m : gmap string json) k :
  k ∈ dom (filter (λ kv, kv.1 ∉ keys) m) ↔ (k ∉ keys) ∧ k ∈ dom m.
Proof.
  rewrite !elem_of_dom, lookup_filter_notin.
  case_decide; [|naive_solver].
  split; [by intros [? ?]|naive_solver].
Qed.

Lemma split_sample_record :
  split_record sample_record = Ok (sample_after, sample_out).
Proof. vm_compute. reflexivity. Qed.

(** C1. [split_record] returns for every record; in the station it returns,
    [coordinates] is bound to a value that is not [None], namely the input's
    own value, or [{latitude: 0.0, longitude: 0.0}] when the input has no
    [coordinates] or has [None] there; in the measurement, [averagingPeriod]
    is bound, to the input's value or to the empty string when the input has
    none. *)
Theorem split_record_total_and_defaulted record :
  ∃ record' out,
    split_record record = Ok (record', out)
    ∧ (∃ c, station out !! "coordinates" = Some c ∧ is_none c = false)
    ∧ station out !! "coordinates" = Some (coordinates_of record)
    ∧ (record !! "coordinates" = None ∨ record !! "coordinates" = Some JNull →
       station out !! "coordinates" = Some default_coordinates)
    ∧ is_Some (measurement out !! "averagingPeriod")
    ∧ measurement out !! "averagingPeriod" = Some (averaging_period_of record)
    ∧ (record !! "averagingPeriod" = None →
       measurement out !! "averagingPeriod" = Some (JString "")).
Proof.
  eexists _, _. split; [apply split_record_eq|]. cbn [station measurement].
  assert (Hst : filter (λ kv : string * json, kv.1 ∈ stat_keys)
                  (defaulted record) !! "coordinates"
                = Some (coordinates_of record)).
  { rewrite lookup_filter_in, defaulted_lookup.
    reflexivity. }
  assert (Hme : filter (λ kv : string * json, kv.1 ∈ mes_keys)
                  (defaulted record) !! "averagingPeriod"
                = Some (averaging_period_of record)).
  { rewrite lookup_filter_in, defaulted_lookup.
    reflexivity. }
  rewrite Hst, Hme. repeat split.
  - eexists. split; [done|]. apply coordinates_of_not_none.
  - intros [E|E]; unfold coordinates_of; by rewrite E.
  - done.
  - intros E. unfold averaging_period_of. by rewrite E.
Qed.

Lemma split_record_total_and_defaulted_witness :
  ∃ record' out,
    split_record sample_record = Ok (record', out)
    ∧ station out !! "coordinates" = Some default_coordinates
    ∧ measurement out !! "averagingPeriod" = Some (JString "").
Proof.
  destruct (split_record_total_and_defaulted sample_record)
    as (record' & out & E & _ & _ & Hc & _ & _ & Ha).
  exists record', out. split_and!; [exact E|by apply Hc; left|by apply Ha].
Defined.

(** C2. The key sets of the three outputs cover the key set of the record
    as it stands after the defaulting (which is the dict that was passed in,
    after the call: the input's keys with [coordinates] and
    [averagingPeriod] added); station and measurement share [sourceName],
    when the record has it, and nothing else; the extension shares no key
    with either; and each output binds its keys to the record's values. *)
Theorem split_record_keys_partition record record' out :
  split_record record = Ok (record', out) →
  dom (station out) ∪ dom (measurement out) ∪ dom (ext out) = dom record'
  ∧ dom record' = dom record ∪ {["coordinates"; "averagingPeriod"]}
  ∧ dom (station out) ∩ dom (measurement out) = dom record' ∩ {["sourceName"]}
  ∧ dom (station out) ∩ dom (ext out) = ∅
  ∧ dom (measurement out) ∩ dom (ext out) = ∅
  ∧ station out ⊆ record' ∧ measurement out ⊆ record' ∧ ext out ⊆ record'.
Proof.
  intros H. apply split_record_inv in H as (-> & -> & -> & ->).
  split_and!.
  - apply set_eq. intros k.
    rewrite !elem_of_union, !elem_of_dom_filter_in, elem_of_dom_filter_notin.
    rewrite elem_of_app.
    destruct (decide (k ∈ stat_keys)), (decide (k ∈ mes_keys)); naive_solver.
  - apply dom_defaulted.
  - apply set_eq. intros k.
    rewrite !elem_of_intersection, !elem_of_dom_filter_in, elem_of_singleton.
    unfold stat_keys, mes_keys. rewrite !elem_of_cons, !elem_of_nil.
    split.
    + intros [[Hs ?] [Hm _]]. split; [done|].
      destruct Hs as [->|[->|[->|[->|[->|[]]]]]]; [..|done];
        destruct Hm as [?|[?|[?|[?|[?|[?|[]]]]]]]; discriminate.
    + intros [? ->]. naive_solver.
  - apply set_eq. intros k.
    rewrite elem_of_intersection,
      elem_of_dom_filter_in,
      elem_of_dom_filter_notin, elem_of_app.
    set_solver.
  - apply set_eq. intros k.
    rewrite elem_of_intersection,
      elem_of_dom_filter_in,
      elem_of_dom_filter_notin, elem_of_app.
    set_solver.
  - apply map_filter_subseteq.
  - apply map_filter_subseteq.
  - apply map_filter_subseteq.
Qed.

Lemma split_record_keys_partition_witness :
  split_record sample_record = Ok (sample_after, sample_out)
  ∧ dom (station sample_out) ∪ dom (measurement sample_out)
      ∪ dom (ext sample_out) = dom sample_after
  ∧ dom (station sample_out) ∩ dom (measurement sample_out) = {["sourceName"]}.
Proof.
  pose proof (split_record_keys_partition sample_record sample_after sample_out
                split_sample_record) as (Hu & _ & Hi & _).
  split_and!; [exact split_sample_record | exact Hu |].
  rewrite Hi. vm_compute. reflexivity.
Defined.

(** C9. A key other than [coordinates] and [averagingPeriod] that the input
    does not have is in none of the three outputs: nothing else is filled
    in. *)
Theorem split_record_fills_nothing_else record record' out k :
  split_record record = Ok (record', out) →
  record !! k = None →
  k ≠ "coordinates" → k ≠ "averagingPeriod" →
  station out !! k = None ∧ measurement out !! k = None ∧ ext out !! k = None.
Proof.
  intros H Hk Hc Ha. apply split_record_inv in H as (-> & -> & -> & ->).
  assert (Hd : defaulted record !! k = None).
  { rewrite defaulted_lookup. by rewrite !decide_False by done. }
  rewrite !lookup_filter_in, lookup_filter_notin, Hd.
  split_and!; by case_decide.
Qed.

Lemma split_record_fills_nothing_else_witness :
  split_record sample_record = Ok (sample_after, sample_out)
  ∧ sample_record !! "unit" = None
  ∧ measurement sample_out !! "unit" = None
  ∧ sample_record !! "city" = None
  ∧ station sample_out !! "city" = None.
Proof.
  split_and!.
  - exact split_sample_record.
  - reflexivity.
  - apply (split_record_fills_nothing_else sample_record sample_after
             sample_out "unit" split_sample_record); [reflexivity|done|done].
  - reflexivity.
  - apply (split_record_fills_nothing_else sample_record sample_after
             sample_out "city" split_sample_record); [reflexivity|done|done].
Defined.

(** C4, as stated, fails: called on an empty dict, [split_record] leaves
    the two defaults in it. *)
Lemma split_record_mutates_argument :
  (∃ record' out,
     split_record ∅ = Ok (record', out)
     ∧ record' = {[ "coordinates" := default_coordinates;
                    "averagingPeriod" := JString "" ]})
  ∧ ¬ leaves_argument_unchanged ∅.
Proof.
  assert (E : ∃ record' out,
     split_record ∅ = Ok (record', out)
     ∧ record' = {[ "coordinates" := default_coordinates;
                    "averagingPeriod" := JString "" ]}).
  { eexists _, _. split; [apply split_record_eq|]. vm_compute. reflexivity. }
  split; [exact E|]. destruct E as (record' & out & E & ->).
  intros H. specialize (H _ _ E).
  apply (f_equal (λ m : gmap string json, m !! "coordinates")) in H.
  vm_compute in H. discriminate.
Qed.

(** C4, amended. After the call the dict that was passed in is the defaulted
    record: [coordinates] is bound to the input's value, or to the default
    when it was missing or [None]; [averagingPeriod] is bound to the input's
    value, or to the empty string when it was missing; every other key is
    as before. A record that has a [coordinates] value other than [None]
    and has [averagingPeriod] is left as it was. *)
Theorem split_record_argument_after record record' out :
  split_record record = Ok (record', out) →
  record' !! "coordinates" = Some (coordinates_of record)
  ∧ record' !! "averagingPeriod" = Some (averaging_period_of record)
  ∧ (∀ k, k ≠ "coordinates" → k ≠ "averagingPeriod" →
          record' !! k = record !! k)
  ∧ ((∃ c, record !! "coordinates" = Some c ∧ is_none c = false) →
     is_Some (record !! "averagingPeriod") →
     record' = record).
Proof.
  intros H. apply split_record_inv in H as (-> & _). split_and!.
  - by rewrite defaulted_lookup.
  - by rewrite defaulted_lookup.
  - intros k Hc Ha. rewrite defaulted_lookup. by rewrite !decide_False by done.
  - intros (c & Ec & Hn) [a Ea]. apply map_eq. intros k.
    rewrite defaulted_lookup. repeat case_decide; subst.
    + unfold averaging_period_of. by rewrite Ea.
    + unfold coordinates_of. rewrite Ec. by destruct c.
    + done.
Qed.

Lemma split_record_argument_after_witness :
  split_record sample_record = Ok (sample_after, sample_out)
  ∧ sample_after !! "coordinates" = Some default_coordinates
  ∧ sample_after !! "averagingPeriod" = Some (JString "")
  ∧ sample_after !! "value" = Some (JInt 27).
Proof.
  pose proof (split_record_argument_after sample_record sample_after sample_out
                split_sample_record) as (Hc & Ha & Hk & _).
  split_and!.
  - exact split_sample_record.
  - rewrite Hc. reflexivity.
  - rewrite Ha. reflexivity.
  - rewrite Hk by done. reflexivity.
Defined.

End splitter_facts.

(** ** DateFilter *)

Section dates_facts.
Import Dates Samples.


Lemma genexpr_Ok {A} (cond : A → res bool) (l kept : list A) :
  genexpr cond l = Ok kept →
  kept `sublist_of` l ∧ ∀ x, x ∈ kept → cond x = Ok true.
Proof.
  revert kept. induction l as [|x l IH]; intros kept; cbn [genexpr].
  - intros [= <-]. split; [done|]. by intros x ?%elem_of_nil.
  - destruct (cond x) as [keep|] eqn:Ex; [|done]. cbn [mbind res_bind].
    destruct (genexpr cond l) as [rest|]; [|done]. cbn [mbind res_bind].
    destruct (IH rest eq_refl) as [Hsub Hall].
    intros [= <-]. destruct keep.
    + split; [by constructor|]. intros y [->|Hy]%elem_of_cons; auto.
    + split; [by constructor|]. done.
Qed.


Lemma between_aware a b c oa ob oc :
  tzinfo a = Some oa → tzinfo b = Some ob → tzinfo c = Some oc →
  between a b c =
    Ok (bool_decide (wall a - oa ≤ wall b - ob ≤ wall c - oc)).
Proof.
  intros Ha Hb Hc. unfold between, dt_le. rewrite Ha, Hb, Hc.
  cbn [mbind res_bind].
  destruct (bool_decide_reflect (wall a - oa ≤ wall b - ob)).
  - f_equal. apply bool_decide_ext. lia.
  - f_equal. symmetry. apply bool_decide_eq_false. lia.
Qed.


(** Bounds as [filter_objects] compares them: a naive one becomes UTC. *)
Lemma normalized_bound (dt : datetime) :
  ∃ dt' o,
    match tzinfo dt with
    | None => localize dt
    | Some _ => Ok dt
    end = Ok dt'
    ∧ tzinfo dt' = Some o ∧ wall dt' - o = utc_instant dt.
Proof.
  unfold localize, utc_instant. destruct dt as [w [o|]]; cbn.
  - by exists (DateTime w (Some o)), o.
  - by exists (DateTime w (Some 0)), 0.
Qed.

(** *** The pattern *)

Lemma date_at_Some s g :
  date_at s = Some g →
  ∃ post, s = "/" +:+ g +:+ "/" +:+ post ∧ date_shaped g.
Proof.
  unfold date_at, segment_items.
  destruct (match_items _ s) eqn:H; [|done]. intros [= <-].
  repeat (destruct s as [|? s]; cbn [match_items] in H; [discriminate|];
          apply andb_true_iff in H as [? H]).
  repeat match goal with
         | Hc : item_ok (Lit _) _ = true |- _ =>
             apply bool_decide_eq_true in Hc; subst
         | Hc : item_ok Digit _ = true |- _ => cbn [item_ok] in Hc
         end.
  exists s. split; [reflexivity|].
  cbn [substring].
  eexists (String _ (String _ (String _ (String _ EmptyString)))),
          (String _ (String _ EmptyString)),
          (String _ (String _ EmptyString)).
  split_and!; [reflexivity..| | |]; repeat constructor; assumption.
Qed.

Lemma date_at_shaped g post :
  date_shaped g → date_at ("/" +:+ g +:+ "/" +:+ post) = Some g.
Proof.
  intros (y & m & d & -> & Hy & Hm & Hd & Dy & Dm & Dd).
  destruct y as [|y1 [|y2 [|y3 [|y4 [|]]]]]; try discriminate.
  destruct m as [|m1 [|m2 [|]]]; try discriminate.
  destruct d as [|d1 [|d2 [|]]]; try discriminate.
  unfold all_digits in *. cbn [list_ascii_of_string] in *.
  repeat match goal with
         | H : Forall _ (_ :: _) |- _ => apply Forall_cons in H as [? H]
         end.
  unfold date_at, segment_items.
  lazy beta iota zeta delta [String.append match_items item_ok substring].
  repeat match goal with
         | H : is_digit _ = true |- _ => rewrite H; clear H
         end.
  rewrite !bool_decide_eq_true_2 by reflexivity. reflexivity.
Qed.

Lemma match_here_Some s g :
  match_here s = Some g →
  ∃ pre post, s = pre +:+ "/" +:+ g +:+ "/" +:+ post ∧ date_shaped g.
Proof.
  assert (Hat : date_at s = Some g →
    ∃ pre post, s = pre +:+ "/" +:+ g +:+ "/" +:+ post ∧ date_shaped g).
  { intros (post & -> & Hg)%date_at_Some. by exists EmptyString, post. }
  revert Hat. induction s as [|c s IH]; cbn [match_here]; [done|].
  intros Hat. destruct (is_newline c); [done|].
  destruct (match_here s) as [g'|] eqn:E; [|done].
  intros [= ->].
  destruct IH as (pre & post & -> & Hg); [|done|].
  - intros (post & -> & Hg)%date_at_Some. by exists EmptyString, post.
  - by exists (String c pre), post.
Qed.

Lemma search_Some s g :
  search s = Some g →
  ∃ pre post, s = pre +:+ "/" +:+ g +:+ "/" +:+ post ∧ date_shaped g.
Proof.
  induction s as [|c s IH]; cbn [search].
  - destruct (match_here EmptyString) eqn:E; [|done].
    intros [= ->]. by apply match_here_Some.
  - destruct (match_here (String c s)) eqn:E.
    + intros [= ->]. by apply match_here_Some.
    + intros (pre & post & -> & Hg)%IH. by exists (String c pre), post.
Qed.

Lemma match_here_date_at s g : date_at s = Some g → is_Some (match_here s).
Proof.
  intros H. destruct s as [|c s]; cbn [match_here]; [by rewrite H|].
  destruct (is_newline c); [by rewrite H|].
  destruct (match_here s); [done|by rewrite H].
Qed.

Lemma search_complete x : has_date_segment x → is_Some (search x).
Proof.
  intros (pre & g & post & -> & Hg).
  induction pre as [|c pre IH].
  - change (EmptyString +:+ ?s) with s.
    destruct (match_here_date_at _ _ (date_at_shaped g post Hg)) as [g' E].
    destruct ("/" +:+ g +:+ "/" +:+ post); cbn [search]; by rewrite E.
  - change (String c pre +:+ ?s) with (String c (pre +:+ s)).
    cbn [search]. by destruct (match_here _).
Qed.

Lemma search_None x : ¬ has_date_segment x → search x = None.
Proof.
  intros Hx. destruct (search x) as [g|] eqn:E; [|done].
  destruct Hx. apply search_Some in E as (pre & post & -> & Hg).
  by exists pre, g, post.
Qed.

Lemma parser_parse_calendar g :
  calendar_date g → ∃ w, parser_parse g = Ok (DateTime w None).
Proof.
  unfold calendar_date, parser_parse, mk_datetime. intros ->. by eexists.
Qed.

Lemma parser_parse_naive g d : parser_parse g = Ok d → tzinfo d = None.
Proof.
  unfold parser_parse, mk_datetime. destruct (valid_ymd _ _ _); [|done].
  by intros [= <-].
Qed.




Lemma genexpr_total {A} (cond : A → res bool) (l : list A) :
  (∀ x, x ∈ l → ∃ b, cond x = Ok b) →
  ∃ kept, genexpr cond l = Ok kept
          ∧ ∀ x, x ∈ kept ↔ x ∈ l ∧ cond x = Ok true.
Proof.
  induction l as [|x l IH]; intros Hc.
  - exists []. split; [done|]. intros x. rewrite elem_of_nil. tauto.
  - destruct (Hc x) as [b Eb]; [by left|].
    destruct IH as (rest & Er & Hrest); [intros y Hy; apply Hc; by right|].
    cbn [genexpr]. rewrite Eb, Er. cbn [mbind res_bind]. eexists. split; [done|].
    intros y. destruct b.
    + rewrite !elem_of_cons, Hrest. split; [|naive_solver].
      intros [->|[? ?]]; auto.
    + rewrite elem_of_cons, Hrest. split; [naive_solver|].
      intros [[->|?] Hy]; [congruence|done].
Qed.






End dates_facts.

(** ** Lister *)

Section lister_facts.
Import Dates Lister Samples.

Lemma accumulate_app result acc :
  accumulate result acc
  = (acc.1 ++ page_objects result, acc.2 ++ page_prefixes result).
Proof.
  unfold accumulate, page_objects, page_prefixes.
  destruct (Contents result), (CommonPrefixes result); cbn [default];
    by rewrite ?fmap_nil, ?app_nil_r.
Qed.

Lemma paged_nonempty pages : paged pages → pages ≠ [].
Proof. by destruct 1. Qed.

(** The loop, entered with the page [result] in hand and the pages [more]
    still to be served. *)
Lemma while_truncated_paged bucket_name prefix extra result more :
  paged (result :: more) →
  ∀ fuel lg acc,
    (length more ≤ fuel)%nat →
    while_truncated fuel bucket_name prefix
      {| script := more ++ extra; log := lg |} result acc
    = Some (Ok (acc.1 ++ concat (page_objects <$> more),
                acc.2 ++ concat (page_prefixes <$> more)),
            {| script := extra;
               log := lg ++ (next_request bucket_name prefix
                               <$> removelast (result :: more)) |}).
Proof.
  revert result. induction more as [|r more IH]; intros result Hp fuel lg acc Hf.
  - inversion Hp as [? Hlast|? ? _ Hrest]; subst.
    + destruct fuel; cbn [while_truncated]; rewrite Hlast;
        cbn; rewrite !app_nil_r; by destruct acc.
    + by apply paged_nonempty in Hrest.
  - inversion Hp as [|? ? [Ht [token Htok]] Hrest]; subst.
    destruct fuel as [|fuel]; [cbn in Hf; lia|].
    cbn [while_truncated]. rewrite Ht, Htok.
    cbn [list_objects_v2 scripted_client script log app].
    rewrite IH by (done || cbn in Hf; lia).
    rewrite accumulate_app. cbn [fst snd fmap list_fmap concat].
    rewrite <- !app_assoc.
    change (removelast (result :: r :: more))
      with (result :: removelast (r :: more)).
    rewrite fmap_cons.
    assert (next_request bucket_name prefix result
            = {| Bucket := bucket_name; Prefix := prefix; Delimiter := "/";
                 ContinuationToken := Some token |}) as ->
      by (unfold next_request; by rewrite Htok).
    reflexivity.
Qed.

Lemma get_object_list_paged bucket_name prefix pages extra lg fuel :
  paged pages →
  (length pages ≤ S fuel)%nat →
  get_object_list fuel bucket_name prefix
    {| script := pages ++ extra; log := lg |}
  = Some (Ok (concat (page_objects <$> pages),
              concat (page_prefixes <$> pages)),
          {| script := extra;
             log := lg ++ first_request bucket_name prefix
                          :: (next_request bucket_name prefix
                                <$> removelast pages) |}).
Proof.
  intros Hp Hf. destruct pages as [|result more]; [by inversion Hp|].
  unfold get_object_list.
  cbn [list_objects_v2 scripted_client script log app].
  rewrite (while_truncated_paged _ _ _ _ _ Hp) by (cbn in Hf; lia).
  rewrite accumulate_app. cbn [fst snd app fmap list_fmap concat].
  by rewrite <- app_assoc.
Qed.

(** C5. Served a listing in pages, [get_object_list] asks for the first
    page without a token and for every further page with the token of the
    page before, as long as the page in hand says it is truncated, and
    returns the objects of all pages and the common prefixes of all pages,
    concatenated in page order. For three pages (truncated, truncated, not
    truncated) the result is the first page's entries, then the second's,
    then the third's: every entry of every page, as many times as the pages
    have it. *)
Theorem get_object_list_all_pages bucket_name prefix :
  (∀ pages extra lg fuel,
     paged pages → (length pages ≤ S fuel)%nat →
     get_object_list fuel bucket_name prefix
       {| script := pages ++ extra; log := lg |}
     = Some (Ok (concat (page_objects <$> pages),
                 concat (page_prefixes <$> pages)),
             {| script := extra;
                log := lg ++ first_request bucket_name prefix
                             :: (next_request bucket_name prefix
                                   <$> removelast pages) |}))
  ∧ (∀ p1 p2 p3 fuel,
       continues p1 → continues p2 → IsTruncated p3 = false →
       (2 ≤ fuel)%nat →
       ∃ objects prefixes client,
         get_object_list fuel bucket_name prefix
           {| script := [p1; p2; p3]; log := [] |}
         = Some (Ok (objects, prefixes), client)
         ∧ objects = page_objects p1 ++ page_objects p2 ++ page_objects p3
         ∧ prefixes = page_prefixes p1 ++ page_prefixes p2 ++ page_prefixes p3
         ∧ (∀ x, x ∈ objects ↔
                 x ∈ page_objects p1 ∨ x ∈ page_objects p2
                 ∨ x ∈ page_objects p3)
         ∧ (NoDup (page_objects p1 ++ page_objects p2 ++ page_objects p3) →
            NoDup objects)
         ∧ ContinuationToken <$> log client
           = [None; NextContinuationToken p1; NextContinuationToken p2]).
Proof.
  split; [intros; by apply get_object_list_paged|].
  intros p1 p2 p3 fuel H1 H2 H3 Hf.
  assert (Hp : paged [p1; p2; p3])
    by (apply paged_more; [done|apply paged_more; [done|by apply paged_last]]).
  pose proof (get_object_list_paged bucket_name prefix [p1; p2; p3] [] []
                fuel Hp) as E.
  rewrite app_nil_r in E. rewrite E by (cbn; lia).
  eexists _, _, _. split; [reflexivity|].
  cbn [fmap list_fmap concat]. rewrite !app_nil_r.
  split_and!; try done.
  intros x. rewrite !elem_of_app. tauto.
Qed.

Lemma get_object_list_all_pages_witness :
  paged [page1; page2; page3]
  ∧ ∃ client,
      get_object_list 2 "openaq-fetches" "realtime/"
        {| script := [page1; page2; page3]; log := [] |}
      = Some (Ok ([entry "realtime/a"; entry "realtime/b"; entry "realtime/c"],
                  ["realtime/2018-06-07/"; "realtime/2018-06-08/"]), client)
      ∧ ContinuationToken <$> log client = [None; Some "t1"; Some "t2"].
Proof.
  assert (Hp : paged [page1; page2; page3]).
  { apply paged_more; [split; [reflexivity|by eexists]|].
    apply paged_more; [split; [reflexivity|by eexists]|].
    by apply paged_last. }
  split; [exact Hp|]. eexists.
  pose proof (proj1 (get_object_list_all_pages "openaq-fetches" "realtime/")
                [page1; page2; page3] [] [] 2%nat Hp (le_n 3)) as E.
  split; [exact E|]. reflexivity.
Defined.

End lister_facts.

(** ** StreamDecoder *)

Section decoder_facts.
Import Decoder.
Variable scan_once : string → option (json * string).

#[local] Abbreviation loads := (json_loads scan_once).

Lemma advance_None lines : advance scan_once lines = None → omap loads lines = [].
Proof.
  induction lines as [|line lines IH]; cbn [advance omap list_omap]; [done|].
  destruct (loads line); [done|]. apply IH.
Qed.

Lemma advance_Some lines v rest :
  advance scan_once lines = Some (v, rest) →
  omap loads lines = v :: omap loads rest ∧ (length rest < length lines)%nat.
Proof.
  induction lines as [|line lines IH]; cbn [advance omap list_omap length];
    [done|].
  destruct (loads line).
  - intros [= -> ->]. split; [done|lia].
  - intros [-> ?]%IH. split; [done|lia].
Qed.

(** Skipped lines leave no trace: the values are those of the other lines,
    in their order. *)
Lemma omap_loads_skip l1 bad l2 :
  loads bad = None → omap loads (l1 ++ bad :: l2) = omap loads (l1 ++ l2).
Proof.
  intros Hbad. induction l1 as [|line l1 IH]; cbn [app omap list_omap].
  - by rewrite Hbad.
  - rewrite IH. reflexivity.
Qed.

Lemma sg_list_from_yield fuel : ∀ g lines,
  sg_frame g = AtYield lines →
  (length lines < fuel)%nat →
  sg_list scan_once fuel g = Some (Ok (omap loads lines), sg_at g Finished).
Proof.
  induction fuel as [|fuel IH]; intros g lines Hg Hf; [lia|].
  cbn [sg_list]. unfold sg_next. rewrite Hg. unfold sg_resume.
  destruct (advance scan_once lines) as [[v rest]|] eqn:E.
  - apply advance_Some in E as [-> Hlen].
    rewrite (IH _ rest) by (done || lia). reflexivity.
  - apply advance_None in E as ->. reflexivity.
Qed.

Lemma sg_list_lines stream object_name lines fuel :
  lines_of stream object_name = Ok lines →
  (length lines < fuel)%nat →
  sg_list scan_once fuel (get_jsons_from_stream stream object_name)
  = Some (Ok (omap loads lines),
          sg_at (get_jsons_from_stream stream object_name) Finished).
Proof.
  intros Hl Hf. destruct fuel as [|fuel]; [lia|].
  cbn [sg_list]. unfold sg_next.
  cbn [get_jsons_from_stream sg_frame sg_stream sg_name]. rewrite Hl.
  unfold sg_resume.
  destruct (advance scan_once lines) as [[v rest]|] eqn:E.
  - apply advance_Some in E as [-> Hlen].
    rewrite (sg_list_from_yield _ _ rest) by (done || lia). reflexivity.
  - apply advance_None in E as ->. reflexivity.
Qed.

Lemma json_loads_empty : loads EmptyString = None.
Proof. reflexivity. Qed.

Lemma split_nonempty sep s : split sep s ≠ [].
Proof.
  destruct s as [|c s]; cbn [split]; [done|].
  case_bool_decide; [done|]. by destruct (split sep s).
Qed.

Lemma split_trailing sep s :
  split sep (s +:+ String sep EmptyString) = split sep s ++ [EmptyString].
Proof.
  induction s as [|c s IH].
  - change (EmptyString +:+ ?t) with t. cbn [split].
    by rewrite bool_decide_eq_true_2.
  - change (String c s +:+ ?t) with (String c (s +:+ t)).
    cbn [split]. rewrite IH. case_bool_decide; [done|].
    pose proof (split_nonempty sep s). by destruct (split sep s).
Qed.

Lemma loads_whitespace line :
  skip_whitespace line = EmptyString → loads line = None.
Proof. unfold json_loads. by intros ->. Qed.

(** C6. Whatever lines the stream gives, listing the generator yields the
    decoded values of the lines that decode, in line order, and then stops;
    a line that fails to decode adds nothing and ends nothing. With one
    such line among two that decode, in any position, the values are those
    of the two, in order. *)
Theorem get_jsons_from_stream_yields :
  (∀ stream object_name lines fuel,
     lines_of stream object_name = Ok lines →
     (length lines < fuel)%nat →
     ∃ g, sg_list scan_once fuel (get_jsons_from_stream stream object_name)
          = Some (Ok (omap loads lines), g)
          ∧ sg_frame g = Finished)
  ∧ (∀ l1 bad l2,
       loads bad = None →
       omap loads (l1 ++ bad :: l2) = omap loads (l1 ++ l2))
  ∧ (∀ stream object_name lines a b bad va vb,
       loads a = Some va → loads b = Some vb → loads bad = None →
       lines ∈ [[bad; a; b]; [a; bad; b]; [a; b; bad]] →
       lines_of stream object_name = Ok lines →
       ∃ g, sg_list scan_once 4 (get_jsons_from_stream stream object_name)
            = Some (Ok [va; vb], g)).
Proof.
  split_and!.
  - intros stream object_name lines fuel Hl Hf.
    rewrite (sg_list_lines _ _ _ _ Hl Hf). by eexists.
  - apply omap_loads_skip.
  - intros stream object_name lines a b bad va vb Ha Hb Hbad Hin Hl.
    assert (Hlen : (length lines < 4)%nat).
    { rewrite !elem_of_cons, elem_of_nil in Hin.
      destruct Hin as [->|[->|[->|[]]]]; cbn; lia. }
    rewrite (sg_list_lines _ _ _ _ Hl Hlen). eexists. do 2 f_equal.
    rewrite !elem_of_cons, elem_of_nil in Hin.
    destruct Hin as [->|[->|[->|[]]]]; cbn [omap list_omap];
      by rewrite Ha, Hb, Hbad.
Qed.

(** C10. The empty line does not decode, with or without its line end, so
    it yields nothing wherever it stands among the lines. A compressed body is split on the newline
    character, which makes of a text that ends in a newline the lines of
    the text without it and one more, empty, line: listing the generator
    gives the same values with and without the trailing newline. *)
Theorem empty_line_yields_nothing :
  loads EmptyString = None
  ∧ loads (String newline EmptyString) = None
  ∧ (∀ stream object_name l1 l2 fuel,
       lines_of stream object_name = Ok (l1 ++ EmptyString :: l2) →
       (length (l1 ++ EmptyString :: l2) < fuel)%nat →
       ∃ g, sg_list scan_once fuel (get_jsons_from_stream stream object_name)
            = Some (Ok (omap loads (l1 ++ l2)), g))
  ∧ (∀ stream stream' object_name text fuel,
       endswith object_name ".gz" = true →
       gunzip_text stream = Ok text →
       gunzip_text stream' = Ok (text +:+ String newline EmptyString) →
       (S (length (split newline text)) < fuel)%nat →
       ∃ g g',
         sg_list scan_once fuel (get_jsons_from_stream stream object_name)
         = Some (Ok (omap loads (split newline text)), g)
         ∧ sg_list scan_once fuel (get_jsons_from_stream stream' object_name)
           = Some (Ok (omap loads (split newline text)), g')).
Proof.
  split_and!.
  - reflexivity.
  - by apply loads_whitespace.
  - intros stream object_name l1 l2 fuel Hl Hf.
    rewrite (sg_list_lines _ _ _ _ Hl Hf).
    rewrite omap_loads_skip by reflexivity. by eexists.
  - intros stream stream' object_name text fuel Hgz Ht Ht' Hf.
    assert (Hl : lines_of stream object_name = Ok (split newline text))
      by (unfold lines_of; by rewrite Hgz, Ht).
    assert (Hl' : lines_of stream' object_name
                  = Ok (split newline text ++ [EmptyString]))
      by (unfold lines_of; rewrite Hgz, Ht'; cbn [mbind res_bind];
          by rewrite split_trailing).
    rewrite (sg_list_lines _ _ _ _ Hl) by lia.
    rewrite (sg_list_lines _ _ _ _ Hl') by (rewrite length_app; cbn; lia).
    rewrite omap_loads_skip, app_nil_r by reflexivity. by eexists _, _.
Qed.

(** Running out of lines closes the body: a [next] that ends the iteration
    leaves the body released. *)
Lemma leaving_not_stop e : leaving e ≠ StopIteration.
Proof. by destruct e. Qed.

Lemma og_exhaustion_closes g g' :
  og_frame g ≠ Finished →
  og_next scan_once g = (Raise StopIteration, g') →
  body_released g'.
Proof.
  assert (Hres : ∀ g0 lines,
    og_resume scan_once g0 lines = (Raise StopIteration, g') → body_released g').
  { intros g0 lines. unfold og_resume.
    destruct (advance scan_once lines) as [[v rest]|]; [done|].
    intros [= <-] body. cbn [og_at og_body].
    destruct (og_body g0); [|done]. by intros [= <-]. }
  unfold og_next. destruct (og_frame g) as [|pending|]; [| |done].
  - intros _. destruct (og_client g _ _) as [body|e].
    + destruct (lines_of body _) as [lines|e]; [apply Hres|].
      intros [= He _]. by apply leaving_not_stop in He.
    + intros [= He _]. by apply leaving_not_stop in He.
  - intros _. apply Hres.
Qed.

(** Closing a generator that still has a line that decodes does not. *)
Lemma og_close_keeps_body_open g pending v rest body :
  og_frame g = AtYield pending →
  advance scan_once pending = Some (v, rest) →
  og_body g = Some body → closed body = false →
  ∃ g', og_close scan_once g = (Raise RuntimeError, g') ∧ ¬ body_released g'.
Proof.
  intros Hg Ha Hb Hc. unfold og_close. rewrite Hg, Ha. eexists.
  split; [reflexivity|]. intros Hrel.
  specialize (Hrel body Hb). congruence.
Qed.

End decoder_facts.

Section decoder_runs.
Import Decoder Samples.

Lemma get_jsons_from_stream_yields_witness :
  lines_of three_lines "realtime/x.ndjson"
    = Ok [with_newline "1"; with_newline "{oops"; with_newline "2"]
  ∧ ∃ g, sg_list scan_literals 4 (get_jsons_from_stream three_lines "realtime/x.ndjson")
         = Some (Ok [JInt 1; JInt 2], g).
Proof.
  split; [reflexivity|].
  exact (proj2 (proj2 (get_jsons_from_stream_yields scan_literals))
           three_lines "realtime/x.ndjson" _
           (with_newline "1") (with_newline "2") (with_newline "{oops")
           (JInt 1) (JInt 2) eq_refl eq_refl eq_refl
           (list_elem_of_further _ _ _ (list_elem_of_here _ _)) eq_refl).
Defined.

Lemma empty_line_yields_nothing_witness :
  endswith "realtime/x.ndjson.gz" ".gz" = true
  ∧ ∃ g g',
      sg_list scan_literals 4
        (get_jsons_from_stream (gz_body (with_newline "1" +:+ "2"))
           "realtime/x.ndjson.gz")
      = Some (Ok [JInt 1; JInt 2], g)
      ∧ sg_list scan_literals 4
          (get_jsons_from_stream
             (gz_body (with_newline (with_newline "1" +:+ "2")))
             "realtime/x.ndjson.gz")
        = Some (Ok [JInt 1; JInt 2], g').
Proof.
  split; [reflexivity|].
  exact (proj2 (proj2 (proj2 (empty_line_yields_nothing scan_literals)))
           (gz_body (with_newline "1" +:+ "2"))
           (gz_body (with_newline (with_newline "1" +:+ "2")))
           "realtime/x.ndjson.gz" (with_newline "1" +:+ "2") 4%nat
           eq_refl eq_refl eq_refl (le_n 4)).
Defined.

(** C8, at a body of two lines that both decode, read once and then
    closed: the first value comes out, [close] ends in [RuntimeError], and
    the body has not been closed, neither before nor after the [close]. *)
Theorem get_jsons_from_object_abandoned_open :
  ∃ g1 g2,
    og_next scan_literals two_lines_gen = (Ok (JInt 1), g1)
    ∧ og_body g1 = Some two_lines
    ∧ og_close scan_literals g1 = (Raise RuntimeError, g2)
    ∧ og_body g2 = Some two_lines
    ∧ closed two_lines = false
    ∧ ¬ body_released g1 ∧ ¬ body_released g2.
Proof.
  eexists _, _. split_and!; try reflexivity.
  - intros H. by specialize (H two_lines eq_refl).
  - intros H. by specialize (H two_lines eq_refl).
Qed.

End decoder_runs.

(** * Further properties *)

(** ** RecordSplitter, continued *)

Section splitter_more.
Import Splitter Samples.
Implicit Types record : gmap string json.

Lemma defaulted_idem record : defaulted (defaulted record) = defaulted record.
Proof.
  apply map_eq. intros k. rewrite !defaulted_lookup.
  repeat case_decide; subst; try done.
  - unfold averaging_period_of at 1. by rewrite defaulted_lookup.
  - unfold coordinates_of at 1. rewrite defaulted_lookup. cbn.
    pose proof (coordinates_of_not_none record). by destruct (coordinates_of record).
Qed.

(** X1. Put back together, the three outputs are the record as the call
    left it: every key with its value, [sourceName] once. *)
Theorem split_record_outputs_reassemble record record' out :
  split_record record = Ok (record', out) →
  station out ∪ measurement out ∪ ext out = record'.
Proof.
  intros H. apply split_record_inv in H as (-> & -> & -> & ->).
  apply map_eq. intros k.
  rewrite !lookup_union, !lookup_filter_in, lookup_filter_notin.
  destruct (decide (k ∈ stat_keys)) as [Hs|Hs],
           (decide (k ∈ mes_keys)) as [Hm|Hm],
           (decide (k ∈ mes_keys ++ stat_keys)) as [Hb|Hb];
    try (destruct Hb; apply elem_of_app; tauto);
    try (apply elem_of_app in Hb; tauto);
    by destruct (defaulted record !! k).
Qed.

Lemma split_record_outputs_reassemble_witness :
  split_record sample_record = Ok (sample_after, sample_out)
  ∧ station sample_out ∪ measurement sample_out ∪ ext sample_out = sample_after.
Proof.
  split; [exact split_sample_record|].
  exact (split_record_outputs_reassemble _ _ _ split_sample_record).
Defined.

(** X2. A second call on the dict the first call left behind changes
    nothing more and returns the same three outputs. *)
Theorem split_record_second_call record record' out :
  split_record record = Ok (record', out) →
  split_record record' = Ok (record', out).
Proof.
  intros H. apply split_record_inv in H as (-> & Hs & Hm & He).
  rewrite split_record_eq, defaulted_idem. destruct out as [st me ex].
  cbn in Hs, Hm, He. by subst.
Qed.

Lemma split_record_second_call_witness :
  split_record sample_record = Ok (sample_after, sample_out)
  ∧ split_record sample_after = Ok (sample_after, sample_out).
Proof.
  split; [exact split_sample_record|].
  exact (split_record_second_call _ _ _ split_sample_record).
Defined.

End splitter_more.

(** ** DateFilter, continued *)

Section dates_more.
Import Dates Callers Samples.

Lemma genexpr_all_true {A} (cond : A → res bool) (l : list A) :
  (∀ x, x ∈ l → cond x = Ok true) → genexpr cond l = Ok l.
Proof.
  induction l as [|x l IH]; intros Hc; [reflexivity|].
  cbn [genexpr]. rewrite Hc by left. cbn [mbind res_bind].
  rewrite IH by (intros y Hy; apply Hc; by right). reflexivity.
Qed.

Lemma genexpr_idem {A} (cond : A → res bool) (l kept : list A) :
  genexpr cond l = Ok kept → genexpr cond kept = Ok kept.
Proof. intros [_ Hall]%genexpr_Ok. by apply genexpr_all_true. Qed.

(** The first test that raises ends the iteration with its exception. *)
Lemma genexpr_first_raise {A} (cond : A → res bool) (l1 l2 : list A) x e :
  (∀ y, y ∈ l1 → ∃ b, cond y = Ok b) →
  cond x = Raise e →
  genexpr cond (l1 ++ x :: l2) = Raise e.
Proof.
  intros Hl1 Hx. induction l1 as [|y l1 IH]; cbn [app genexpr].
  - by rewrite Hx.
  - destruct (Hl1 y) as [b ->]; [by left|]. cbn [mbind res_bind].
    rewrite IH by (intros z Hz; apply Hl1; by right). reflexivity.
Qed.

Lemma genexpr_Ok_tests {A} (cond : A → res bool) (l kept : list A) :
  genexpr cond l = Ok kept → ∀ x, x ∈ l → ∃ b, cond x = Ok b.
Proof.
  revert kept. induction l as [|y l IH]; intros kept; cbn [genexpr].
  - by intros _ x ?%elem_of_nil.
  - destruct (cond y) as [b|] eqn:Ey; [|done]. cbn [mbind res_bind].
    destruct (genexpr cond l) as [rest|]; [|done].
    intros _ x [->|Hx]%elem_of_cons; [by exists b|]. by eapply IH.
Qed.

(** X3. Filtering again what [filter_objects] yielded, with the same
    bounds, yields it again unchanged. *)
Theorem filter_objects_idempotent all_objects start_date end_date kept :
  filter_objects all_objects start_date end_date = Ok kept →
  filter_objects kept start_date end_date = Ok kept.
Proof.
  unfold filter_objects.
  destruct (normalized_bound start_date) as (s' & os & -> & _).
  destruct (normalized_bound end_date) as (e' & oe & -> & _).
  cbn [mbind res_bind]. apply genexpr_idem.
Qed.

Lemma filter_objects_idempotent_witness :
  filter_objects sample_objects (DateTime 100 None) (DateTime 250 (Some 0))
    = Ok (filter (λ x, 100 ≤ utc_instant (LastModified x) ≤ 250) sample_objects)
  ∧ filter_objects
      (filter (λ x, 100 ≤ utc_instant (LastModified x) ≤ 250) sample_objects)
      (DateTime 100 None) (DateTime 250 (Some 0))
    = Ok (filter (λ x, 100 ≤ utc_instant (LastModified x) ≤ 250) sample_objects).
Proof.
  assert (E : filter_objects sample_objects (DateTime 100 None)
                (DateTime 250 (Some 0))
              = Ok (filter (λ x, 100 ≤ utc_instant (LastModified x) ≤ 250)
                      sample_objects)) by (vm_compute; reflexivity).
  split; [exact E|]. exact (filter_objects_idempotent _ _ _ _ E).
Defined.

(** X4. [filter_objects] ends in [TypeError] exactly when some object's
    [LastModified] has no timezone, whatever the bounds; otherwise it
    completes. *)
Theorem filter_objects_naive_entry all_objects start_date end_date :
  (filter_objects all_objects start_date end_date = Raise TypeError
   ↔ Exists (λ x, tzinfo (LastModified x) = None) all_objects)
  ∧ (Forall (λ x, aware (LastModified x)) all_objects
     ↔ ∃ kept, filter_objects all_objects start_date end_date = Ok kept).
Proof.
  unfold filter_objects.
  destruct (normalized_bound start_date) as (s' & os & -> & Hs & _).
  destruct (normalized_bound end_date) as (e' & oe & -> & He & _).
  cbn [mbind res_bind].
  assert (Htest : ∀ x,
    match tzinfo (LastModified x) with
    | None => between s' (LastModified x) e' = Raise TypeError
    | Some _ => ∃ b, between s' (LastModified x) e' = Ok b
    end).
  { intros x. destruct (tzinfo (LastModified x)) as [ox|] eqn:Ex.
    - rewrite (between_aware _ _ _ _ _ _ Hs Ex He). by eexists.
    - unfold between, dt_le. by rewrite Hs, Ex. }
  assert (Hok : ∀ l, Forall (λ x, aware (LastModified x)) l →
    ∃ kept, genexpr (λ x, between s' (LastModified x) e') l = Ok kept).
  { intros l Ha. rewrite Forall_forall in Ha.
    destruct (genexpr_total (λ x, between s' (LastModified x) e') l)
      as (kept & E & _); [|by exists kept].
    intros x [ox Hx]%Ha. specialize (Htest x). by rewrite Hx in Htest. }
  assert (Hraise : ∀ l, Exists (λ x, tzinfo (LastModified x) = None) l →
    genexpr (λ x, between s' (LastModified x) e') l = Raise TypeError).
  { induction l as [|x l IH]; [by intros ?%Exists_nil|].
    intros Hex. cbn [genexpr]. specialize (Htest x).
    destruct (tzinfo (LastModified x)) as [ox|] eqn:Ex.
    - destruct Htest as [b ->]. cbn [mbind res_bind].
      apply Exists_cons in Hex as [Hx|Hl]; [congruence|].
      by rewrite IH.
    - by rewrite Htest. }
  assert (Hdec : Forall (λ x, aware (LastModified x)) all_objects
                 ∨ Exists (λ x, tzinfo (LastModified x) = None) all_objects).
  { clear. induction all_objects as [|x l [IH|IH]]; [by left| |].
    - destruct (tzinfo (LastModified x)) as [o|] eqn:E.
      + left. constructor; [by exists o|done].
      + right. by left.
    - right. by right. }
  split; split.
  - intros E. destruct Hdec as [Ha|Hex]; [|done].
    destruct (Hok _ Ha) as [kept Ek]. congruence.
  - apply Hraise.
  - apply Hok.
  - intros [kept Ek]. destruct Hdec as [Ha|Hex]; [done|].
    rewrite (Hraise _ Hex) in Ek. discriminate.
Qed.

Lemma filter_objects_naive_entry_witness :
  filter_objects
    [ {| Key := "k"; Size := 1; ETag := "e"; LastModified := DateTime 5 None |} ]
    (DateTime 0 None) (DateTime 9 None)
  = Raise TypeError.
Proof.
  apply (proj1 (filter_objects_naive_entry _ _ _)). by left.
Defined.

(** X5. Filtering again what [filter_prefixes] yielded, with the same
    bounds, yields it again unchanged. *)
Theorem filter_prefixes_idempotent prefixes start_date end_date kept :
  filter_prefixes prefixes start_date end_date = Ok kept →
  filter_prefixes kept start_date end_date = Ok kept.
Proof. unfold filter_prefixes. apply genexpr_idem. Qed.

Lemma filter_prefixes_idempotent_witness :
  filter_prefixes sample_prefixes
    (DateTime 63650000000000000 None) (DateTime 63670000000000000 None)
    = Ok ["realtime/2018-06-07/"]
  ∧ filter_prefixes ["realtime/2018-06-07/"]
      (DateTime 63650000000000000 None) (DateTime 63670000000000000 None)
    = Ok ["realtime/2018-06-07/"].
Proof.
  assert (E : filter_prefixes sample_prefixes
                (DateTime 63650000000000000 None)
                (DateTime 63670000000000000 None)
              = Ok ["realtime/2018-06-07/"]) by (vm_compute; reflexivity).
  split; [exact E|]. exact (filter_prefixes_idempotent _ _ _ _ E).
Defined.

(** X6. Unlike [filter_objects], [filter_prefixes] does not bring its
    bounds and the parsed date to a common footing: with a start bound that
    carries a timezone it never yields a prefix. It completes, empty, only
    when no prefix has a date segment; a prefix whose selected segment is a
    date of the calendar ends the iteration with [TypeError]. *)
Theorem filter_prefixes_aware_start prefixes start_date end_date :
  aware start_date →
  (∀ kept, filter_prefixes prefixes start_date end_date = Ok kept →
     kept = [] ∧ Forall (λ x, ¬ has_date_segment x) prefixes)
  ∧ (∀ l1 x l2 g,
       prefixes = l1 ++ x :: l2 →
       Forall (λ y, ¬ has_date_segment y) l1 →
       search x = Some g → calendar_date g →
       filter_prefixes prefixes start_date end_date = Raise TypeError).
Proof.
  intros [os Hs].
  assert (Htest : ∀ x g d, search x = Some g → parser_parse g = Ok d →
    prefix_test start_date end_date x = Raise TypeError).
  { intros x g d Eg Ed. unfold prefix_test. rewrite Eg, Ed.
    cbn [mbind res_bind]. unfold between, dt_le.
    by rewrite Hs, (parser_parse_naive _ _ Ed). }
  unfold filter_prefixes. split.
  - intros kept Hk.
    assert (Hnone : ∀ x, x ∈ prefixes → search x = None).
    { intros x Hx. destruct (genexpr_Ok_tests _ _ _ Hk x Hx) as [b Eb].
      destruct (search x) as [g|] eqn:Eg; [|done].
      unfold prefix_test in Eb. rewrite Eg in Eb.
      destruct (parser_parse g) as [d|] eqn:Ed; [|done].
      cbn [mbind res_bind] in Eb. unfold between, dt_le in Eb.
      by rewrite Hs, (parser_parse_naive _ _ Ed) in Eb. }
    apply genexpr_Ok in Hk as [Hsub Hall]. split.
    + destruct kept as [|x kept]; [done|].
      assert (Hx : x ∈ prefixes)
        by (eapply elem_of_sublist; [by left|done]).
      specialize (Hall x (list_elem_of_here _ _)).
      unfold prefix_test in Hall. by rewrite (Hnone x Hx) in Hall.
    + apply Forall_forall. intros x Hx Hseg.
      apply search_complete in Hseg as [g Eg]. rewrite (Hnone x Hx) in Eg.
      discriminate.
  - intros l1 x l2 g -> Hl1 Eg Hcal.
    destruct (parser_parse_calendar g Hcal) as [w Ew].
    apply genexpr_first_raise; [|by eapply Htest].
    intros y Hy. rewrite Forall_forall in Hl1. exists false.
    unfold prefix_test. by rewrite (search_None y (Hl1 y Hy)).
Qed.

Lemma filter_prefixes_aware_start_witness :
  aware (DateTime 0 (Some 0))
  ∧ filter_prefixes sample_prefixes (DateTime 0 (Some 0))
      (DateTime 63670000000000000 (Some 0))
    = Raise TypeError.
Proof.
  assert (Ha : aware (DateTime 0 (Some 0))) by (by eexists).
  split; [exact Ha|].
  apply (proj2 (filter_prefixes_aware_start sample_prefixes _ _ Ha)
           [] "realtime/2018-06-07/" ["realtime/"; "realtime/2019-06-07/"]
           "2018-06-07" eq_refl (Forall_nil_2 _) eq_refl eq_refl).
Defined.

(** *** Which segment the pattern selects *)

Lemma no_newline_app_l (pre rest : string) :
  no_newline (pre +:+ rest) = true → no_newline pre = true.
Proof.
  induction pre as [|c pre IH]; [done|].
  change (String c pre +:+ rest) with (String c (pre +:+ rest)).
  cbn [no_newline]. intros [Hc Hr]%andb_true_iff.
  rewrite Hc. by apply IH.
Qed.

Lemma match_here_complete pre g post :
  no_newline pre = true → date_shaped g →
  is_Some (match_here (pre +:+ "/" +:+ g +:+ "/" +:+ post)).
Proof.
  intros Hpre Hg. induction pre as [|c pre IH].
  - change (EmptyString +:+ ?s) with s.
    by eapply match_here_date_at, date_at_shaped.
  - change (String c pre +:+ ?s) with (String c (pre +:+ s)).
    cbn [no_newline] in Hpre. apply andb_true_iff in Hpre as [Hc Hpre].
    cbn [match_here]. apply negb_true_iff in Hc as ->.
    by destruct (IH Hpre) as [g' ->].
Qed.

Lemma match_here_None x :
  no_newline x = true → match_here x = None → ¬ has_date_segment x.
Proof.
  intros Hx Hnone (pre & g & post & -> & Hg).
  destruct (match_here_complete pre g post) as [g' E]; [|done|congruence].
  by eapply no_newline_app_l.
Qed.

Lemma match_here_last x g :
  no_newline x = true → match_here x = Some g →
  ∃ pre post,
    x = pre +:+ "/" +:+ g +:+ "/" +:+ post ∧ date_shaped g
    ∧ ¬ has_date_segment (g +:+ "/" +:+ post).
Proof.
  induction x as [|c x IH]; cbn [match_here no_newline]; [done|].
  intros [Hc Hx]%andb_true_iff. apply negb_true_iff in Hc as ->.
  destruct (match_here x) as [g'|] eqn:E.
  - intros [= ->]. destruct (IH Hx eq_refl) as (pre & post & -> & Hg & Hlast).
    by exists (String c pre), post.
  - intros (post & Heq & Hg)%date_at_Some.
    exists EmptyString, post. split_and!; [done..|].
    change ("/" +:+ ?s) with (String "/" s) in Heq. injection Heq as -> ->.
    by apply match_here_None.
Qed.

(** X7. In a prefix without newline characters that has several date
    segments, the one [filter_prefixes] reads is the last: after the
    opening [/] of the selected segment, no other segment starts. *)
Theorem search_selects_last_segment x g :
  no_newline x = true →
  search x = Some g →
  ∃ pre post,
    x = pre +:+ "/" +:+ g +:+ "/" +:+ post ∧ date_shaped g
    ∧ ¬ has_date_segment (g +:+ "/" +:+ post).
Proof.
  intros Hx Hs. apply match_here_last; [done|].
  destruct (match_here x) as [g'|] eqn:E.
  - destruct x; cbn [search] in Hs; rewrite E in Hs; congruence.
  - rewrite (search_None x) in Hs; [done|]. by apply match_here_None.
Qed.

Lemma search_selects_last_segment_witness :
  search "realtime/2018-06-07/2019-01-02/x" = Some "2019-01-02"
  ∧ ∃ pre post,
      "realtime/2018-06-07/2019-01-02/x"
      = pre +:+ "/" +:+ "2019-01-02" +:+ "/" +:+ post
      ∧ ¬ has_date_segment ("2019-01-02" +:+ "/" +:+ post).
Proof.
  split; [reflexivity|].
  destruct (search_selects_last_segment "realtime/2018-06-07/2019-01-02/x"
              "2019-01-02" eq_refl eq_refl) as (pre & post & E & _ & H).
  by exists pre, post.
Defined.

End dates_more.

(** ** Lister, continued *)

Section lister_more.
Import Dates Lister Callers Samples MoreSamples.

Lemma while_truncated_step bucket_name prefix fuel result r rs lg acc :
  continues result →
  while_truncated (S fuel) bucket_name prefix
    {| script := r :: rs; log := lg |} result acc
  = while_truncated fuel bucket_name prefix
      {| script := rs; log := lg ++ [next_request bucket_name prefix result] |}
      r (accumulate r acc).
Proof.
  intros [Ht [token Htok]]. cbn [while_truncated]. rewrite Ht, Htok.
  cbn [list_objects_v2 scripted_client script log].
  unfold next_request. by rewrite Htok.
Qed.

Lemma while_truncated_no_token `{S3Client C} bucket_name prefix fuel
    (client : C) result acc :
  IsTruncated result = true → NextContinuationToken result = None →
  while_truncated (S fuel) bucket_name prefix client result acc
  = Some (Raise KeyError, client).
Proof. intros Ht Htok. cbn [while_truncated]. by rewrite Ht, Htok. Qed.

Lemma while_truncated_then_no_token bucket_name prefix bad extra cont :
  IsTruncated bad = true → NextContinuationToken bad = None →
  ∀ result fuel lg acc,
    continues result → Forall continues cont →
    (length cont + 2 ≤ fuel)%nat →
    while_truncated fuel bucket_name prefix
      {| script := cont ++ bad :: extra; log := lg |} result acc
    = Some (Raise KeyError,
            {| script := extra;
               log := lg ++ (next_request bucket_name prefix
                               <$> result :: cont) |}).
Proof.
  intros Ht Htok. induction cont as [|r cont IH];
    intros result fuel lg acc Hres Hcont Hf.
  - destruct fuel as [|[|fuel]]; [cbn in Hf; lia..|].
    cbn [app]. rewrite while_truncated_step by done.
    by rewrite while_truncated_no_token.
  - destruct fuel as [|fuel]; [cbn in Hf; lia|].
    apply Forall_cons in Hcont as [Hr Hcont].
    cbn [app]. rewrite while_truncated_step by done.
    rewrite IH by (done || cbn in Hf; lia).
    rewrite !fmap_cons, <- app_assoc. reflexivity.
Qed.

(** X8. A page that says it is truncated but carries no token ends the
    listing with [KeyError]: the pages read so far are lost, and no request
    follows the one that fetched that page. *)
Theorem get_object_list_missing_token bucket_name prefix init bad extra lg fuel :
  Forall continues init →
  IsTruncated bad = true → NextContinuationToken bad = None →
  (length init < fuel)%nat →
  get_object_list fuel bucket_name prefix
    {| script := init ++ bad :: extra; log := lg |}
  = Some (Raise KeyError,
          {| script := extra;
             log := lg ++ first_request bucket_name prefix
                          :: (next_request bucket_name prefix <$> init) |}).
Proof.
  intros Hinit Ht Htok Hf. unfold get_object_list.
  destruct init as [|result cont];
    cbn [app list_objects_v2 scripted_client script log].
  - destruct fuel as [|fuel]; [cbn in Hf; lia|].
    by rewrite while_truncated_no_token.
  - apply Forall_cons in Hinit as [Hres Hcont].
    rewrite (while_truncated_then_no_token _ _ _ _ _ Ht Htok)
      by (done || cbn in Hf; lia).
    by rewrite <- app_assoc.
Qed.

Lemma get_object_list_missing_token_witness :
  get_object_list 2 "openaq-fetches" "realtime/"
    {| script := [page1; page_without_token; page3]; log := [] |}
  = Some (Raise KeyError,
          {| script := [page3];
             log := [first_request "openaq-fetches" "realtime/";
                     next_request "openaq-fetches" "realtime/" page1] |}).
Proof.
  apply (get_object_list_missing_token "openaq-fetches" "realtime/"
           [page1] page_without_token [page3] [] 2).
  - constructor; [|done]. split; [reflexivity|by eexists].
  - reflexivity.
  - reflexivity.
  - cbn. lia.
Defined.

(** X9. The loop has no bound of its own: against a client whose every
    page is truncated and carries a token, [get_object_list] does not
    return, however many iterations it is given. *)
Theorem get_object_list_endless `{S3Client C} :
  (∀ (c : C) req, ∃ r c', list_objects_v2 c req = (Ok r, c') ∧ continues r) →
  ∀ fuel bucket_name prefix (client : C),
    get_object_list fuel bucket_name prefix client = None.
Proof.
  intros Hmore fuel bucket_name prefix client.
  assert (Hloop : ∀ fuel (c : C) result acc, continues result →
    while_truncated fuel bucket_name prefix c result acc = None).
  { clear fuel client. induction fuel as [|fuel IH];
      intros c result acc [Ht [token Htok]]; cbn [while_truncated]; rewrite Ht;
      [done|]. rewrite Htok.
    destruct (Hmore c {| Bucket := bucket_name; Prefix := prefix;
                         Delimiter := "/"; ContinuationToken := Some token |})
      as (r & c' & -> & Hr). by apply IH. }
  unfold get_object_list.
  destruct (Hmore client {| Bucket := bucket_name; Prefix := prefix;
                            Delimiter := "/"; ContinuationToken := None |})
    as (r & c' & -> & Hr). by apply Hloop.
Qed.

Lemma get_object_list_endless_witness :
  @get_object_list unit endless_client 1000 "openaq-fetches" "realtime/" ()
  = None.
Proof.
  apply (@get_object_list_endless unit endless_client).
  intros c req. exists endless_page, c. split; [reflexivity|].
  split; [reflexivity|by eexists].
Defined.

(** X10. [get_objects] lists the fetches bucket, whatever the default
    bucket is, and returns the objects of all pages in page order; the
    common prefixes of the listing are dropped. *)
Theorem get_objects_all_pages prefix pages extra lg fuel :
  paged pages → (length pages ≤ S fuel)%nat →
  ∃ client,
    get_objects fuel prefix {| script := pages ++ extra; log := lg |}
    = Some (Ok (concat (page_objects <$> pages)), client)
    ∧ script client = extra
    ∧ log client
      = lg ++ first_request "openaq-fetches" prefix
              :: (next_request "openaq-fetches" prefix <$> removelast pages).
Proof.
  intros Hp Hf. unfold get_objects.
  rewrite (get_object_list_paged FETCHES_BUCKET prefix pages extra lg fuel Hp Hf).
  by eexists.
Qed.

Lemma get_objects_all_pages_witness :
  ∃ client,
    get_objects 2 "realtime/" {| script := [page1; page2; page3]; log := [] |}
    = Some (Ok [entry "realtime/a"; entry "realtime/b"; entry "realtime/c"],
            client)
    ∧ Bucket <$> log client
      = ["openaq-fetches"; "openaq-fetches"; "openaq-fetches"].
Proof.
  assert (Hp : paged [page1; page2; page3]).
  { apply paged_more; [split; [reflexivity|by eexists]|].
    apply paged_more; [split; [reflexivity|by eexists]|].
    by apply paged_last. }
  destruct (get_objects_all_pages "realtime/" [page1; page2; page3] [] [] 2
              Hp (le_n 3)) as (client & E & _ & Hlog).
  exists client. split; [exact E|]. rewrite Hlog. reflexivity.
Defined.

Lemma all_objects_loop_listings (listings : list (string * list response))
    extra fuel :
  Forall (λ l, paged l.2 ∧ (length l.2 ≤ S fuel)%nat) listings →
  ∀ lg all_objects,
    all_objects_loop fuel ((λ l, PrefixDict {[ "Prefix" := l.1 ]}) <$> listings)
      {| script := concat (snd <$> listings) ++ extra; log := lg |} all_objects
    = Some (Ok (all_objects
                ++ concat ((λ l, concat (page_objects <$> l.2)) <$> listings)),
            {| script := extra;
               log := lg ++ concat (listing_requests <$> listings) |}).
Proof.
  induction listings as [|[p pages] listings IH]; intros Hall lg all_objects.
  - cbn. by rewrite !app_nil_r.
  - apply Forall_cons in Hall as [[Hp Hf] Hall].
    cbn [fmap list_fmap all_objects_loop subscript_Prefix fst snd concat].
    unfold getitem at 1. rewrite lookup_singleton_eq, <- app_assoc.
    rewrite (get_object_list_paged FETCHES_BUCKET p pages _ lg fuel Hp Hf).
    rewrite IH by done. unfold listing_requests at 2. cbn [fst snd].
    by rewrite <- !app_assoc.
Qed.

(** X11. Given one dict [{'Prefix': p}] per prefix, [get_all_objects_list]
    lists each prefix of the fetches bucket in turn, page by page, and
    returns the objects of all of them in that order. The common prefixes
    that the listings return are not followed: there is one request per
    page and no other. *)
Theorem get_all_objects_list_concatenates
    (listings : list (string * list response)) extra lg fuel :
  Forall (λ l, paged l.2 ∧ (length l.2 ≤ S fuel)%nat) listings →
  get_all_objects_list fuel
    ((λ l, PrefixDict {[ "Prefix" := l.1 ]}) <$> listings)
    {| script := concat (snd <$> listings) ++ extra; log := lg |}
  = Some (Ok (concat ((λ l, concat (page_objects <$> l.2)) <$> listings)),
          {| script := extra;
             log := lg ++ concat (listing_requests <$> listings) |}).
Proof.
  intros Hall. unfold get_all_objects_list.
  by rewrite (all_objects_loop_listings listings extra fuel Hall).
Qed.

Lemma get_all_objects_list_concatenates_witness :
  get_all_objects_list 1
    [PrefixDict {[ "Prefix" := "realtime/2018-06-07/" ]};
     PrefixDict {[ "Prefix" := "realtime/2018-06-08/" ]}]
    {| script := [page1; page3; page3]; log := [] |}
  = Some (Ok [entry "realtime/a"; entry "realtime/b"],
          {| script := [];
             log := [first_request "openaq-fetches" "realtime/2018-06-07/";
                     next_request "openaq-fetches" "realtime/2018-06-07/" page1;
                     first_request "openaq-fetches" "realtime/2018-06-08/"] |}).
Proof.
  apply (get_all_objects_list_concatenates
           [("realtime/2018-06-07/", [page1; page3]);
            ("realtime/2018-06-08/", [page3])] [] [] 1).
  repeat apply Forall_cons_2; [| |apply Forall_nil_2]; cbn [snd].
  - split; [|cbn; lia].
    apply paged_more; [split; [reflexivity|by eexists]|by apply paged_last].
  - split; [by apply paged_last|cbn; lia].
Defined.

(** X12. What [get_object_list] returns as prefixes are strings, and
    [get_all_objects_list] subscripts its prefixes with ['Prefix']: fed the
    prefixes of a listing, it ends in [TypeError] at the first of them,
    before any request. *)
Theorem get_all_objects_list_rejects_listed_prefixes `{S3Client C}
    fuel fuel' bucket_name prefix (client client' : C) objects prefixes :
  get_object_list fuel bucket_name prefix client
    = Some (Ok (objects, prefixes), client') →
  prefixes ≠ [] →
  get_all_objects_list fuel' (PrefixStr <$> prefixes) client'
  = Some (Raise TypeError, client').
Proof. intros _ Hne. by destruct prefixes. Qed.

Lemma get_all_objects_list_rejects_listed_prefixes_witness :
  ∃ client',
    get_object_list 2 "openaq-fetches" "realtime/"
      {| script := [page1; page2; page3]; log := [] |}
    = Some (Ok ([entry "realtime/a"; entry "realtime/b"; entry "realtime/c"],
                ["realtime/2018-06-07/"; "realtime/2018-06-08/"]), client')
    ∧ get_all_objects_list 2
        (PrefixStr <$> ["realtime/2018-06-07/"; "realtime/2018-06-08/"]) client'
      = Some (Raise TypeError, client').
Proof.
  assert (E : get_object_list 2 "openaq-fetches" "realtime/"
                {| script := [page1; page2; page3]; log := [] |}
              = Some (Ok ([entry "realtime/a"; entry "realtime/b";
                           entry "realtime/c"],
                          ["realtime/2018-06-07/"; "realtime/2018-06-08/"]),
                      {| script := [];
                         log := [first_request "openaq-fetches" "realtime/";
                                 next_request "openaq-fetches" "realtime/" page1;
                                 next_request "openaq-fetches" "realtime/" page2]
                      |})) by reflexivity.
  eexists. split; [exact E|].
  exact (get_all_objects_list_rejects_listed_prefixes 2 2 _ _ _ _ _ _ E
           ltac:(discriminate)).
Defined.

End lister_more.

(** ** StreamDecoder and the pipeline, continued *)

Section pipeline_facts.
Import Splitter Decoder Callers.
Variable scan_once : string → option (json * string).
Variable client : object_client.
Variables (bucket object_name : string) (body : stream).

#[local] Abbreviation loads := (json_loads scan_once).
#[local] Abbreviation gen := (og_with client bucket object_name).

Lemma og_next_created lines :
  client bucket object_name = Ok body →
  lines_of body object_name = Ok lines →
  og_next scan_once (get_jsons_from_object bucket object_name client)
  = og_resume scan_once (gen Created body) lines.
Proof.
  intros Hc Hl. unfold og_next.
  cbn [get_jsons_from_object og_frame og_client og_bucket og_name].
  by rewrite Hc, Hl.
Qed.

Lemma og_resume_value f line rest v :
  loads line = Some v →
  og_resume scan_once (gen f body) (line :: rest)
  = (Ok v, gen (AtYield rest) body).
Proof. intros Hv. unfold og_resume. cbn [advance]. by rewrite Hv. Qed.

Lemma og_resume_skip f line rest :
  loads line = None →
  og_resume scan_once (gen f body) (line :: rest)
  = og_resume scan_once (gen f body) rest.
Proof. intros Hv. unfold og_resume. cbn [advance]. by rewrite Hv. Qed.

Lemma og_resume_end f :
  og_resume scan_once (gen f body) []
  = (Raise StopIteration, gen Finished (stream_close body)).
Proof. reflexivity. Qed.

Lemma og_list_lines lines : ∀ fuel g f,
  og_next scan_once g = og_resume scan_once (gen f body) lines →
  (length lines < fuel)%nat →
  og_list scan_once fuel g
  = Some (Ok (omap loads lines), gen Finished (stream_close body)).
Proof.
  induction lines as [|line lines IH]; intros fuel g f Hg Hf;
    (destruct fuel as [|fuel]; [cbn in Hf; lia|]).
  - cbn [og_list]. by rewrite Hg, og_resume_end.
  - cbn [omap list_omap]. destruct (loads line) as [v|] eqn:Ev.
    + cbn [og_list]. rewrite Hg, (og_resume_value _ _ _ _ Ev).
      rewrite (IH fuel _ (AtYield lines)); [done|done|cbn in Hf; lia].
    + apply (IH _ _ f); [|cbn in Hf; lia].
      by rewrite Hg, og_resume_skip.
Qed.

(** X13. [get_jsons_from_object] yields what [get_jsons_from_stream]
    yields on the same body: the values of the lines that decode, in line
    order; and when the lines run out the body is closed. *)
Theorem get_jsons_from_object_yields lines fuel :
  client bucket object_name = Ok body →
  lines_of body object_name = Ok lines →
  (length lines < fuel)%nat →
  ∃ g,
    og_list scan_once fuel (get_jsons_from_object bucket object_name client)
    = Some (Ok (omap loads lines), g)
    ∧ og_frame g = Finished ∧ body_released g
    ∧ fst <$> sg_list scan_once fuel (get_jsons_from_stream body object_name)
      = Some (Ok (omap loads lines)).
Proof.
  intros Hc Hl Hf. eexists. split_and!.
  - apply (og_list_lines lines fuel _ Created); [|done].
    by apply og_next_created.
  - reflexivity.
  - intros b [= <-]. reflexivity.
  - by rewrite (sg_list_lines _ _ _ _ _ Hl Hf).
Qed.

(** *** The loop of [process_file], with stores that keep what they get *)

Lemma measurement_lookup (record : gmap string json) k :
  k ∈ ["parameter"; "value"; "unit"; "date"] →
  filter (λ kv, kv.1 ∈ mes_keys) (defaulted record) !! k = record !! k.
Proof.
  rewrite !elem_of_cons, elem_of_nil.
  intros [->|[->|[->|[->|[]]]]];
    rewrite lookup_filter_in, defaulted_lookup; reflexivity.
Qed.

Lemma measurement_lookup_period (record : gmap string json) :
  filter (λ kv, kv.1 ∈ mes_keys) (defaulted record) !! "averagingPeriod"
  = Some (averaging_period_of record).
Proof. rewrite lookup_filter_in, defaulted_lookup. reflexivity. Qed.

Lemma store_record_complete v stations rows :
  complete v →
  store_record keep_station keep_row v stations rows
  = (Ok (), (stations ++ [station_of v],
             rows ++ [row_of (length stations) v])).
Proof.
  intros (record & date & -> & [p Hp] & [va Hva] & [u Hu] & Hd & [utc Hutc]).
  unfold store_record, split_value. rewrite split_record_eq.
  cbn [mbind res_bind snd station measurement keep_station].
  unfold store_arguments, getitem.
  rewrite (measurement_lookup record "parameter"),
    (measurement_lookup record "value"), (measurement_lookup record "unit"),
    (measurement_lookup record "date"), measurement_lookup_period
    by (rewrite !elem_of_cons; tauto).
  rewrite Hp, Hva, Hu, Hd. cbn [mbind res_bind subscript].
  unfold getitem. rewrite Hutc. cbn [mbind res_bind keep_row].
  unfold row_of, field, station_of. rewrite Hp, Hva, Hu, Hd.
  cbn [default from_option id]. by rewrite Hutc.
Qed.



Lemma rows_of_cons start v vs :
  rows_of start (v :: vs) = row_of start v :: rows_of (S start) vs.
Proof. reflexivity. Qed.

Lemma process_loop_complete lines : ∀ fuel g f stations rows records,
  og_next scan_once g = og_resume scan_once (gen f body) lines →
  Forall complete (omap loads lines) →
  (length lines < fuel)%nat →
  process_loop scan_once keep_station keep_row fuel g stations rows records
  = Some (Ok (records + length (omap loads lines))%nat,
          (gen Finished (stream_close body),
           stations ++ (station_of <$> omap loads lines),
           rows ++ rows_of (length stations) (omap loads lines))).
Proof.
  induction lines as [|line lines IH];
    intros fuel g f stations rows records Hg Hall Hf;
    (destruct fuel as [|fuel]; [cbn in Hf; lia|]).
  - cbn [process_loop]. rewrite Hg, og_resume_end. cbn.
    by rewrite !app_nil_r, Nat.add_0_r.
  - cbn [omap list_omap] in *. destruct (loads line) as [v|] eqn:Ev.
    + apply Forall_cons in Hall as [Hv Hall].
      cbn [process_loop]. rewrite Hg, (og_resume_value _ _ _ _ Ev).
      rewrite (store_record_complete _ _ _ Hv).
      rewrite (IH fuel _ (AtYield lines)); [|done|done|cbn in Hf; lia].
      rewrite length_app, rows_of_cons, fmap_cons. cbn [length].
      rewrite <- !app_assoc, Nat.add_1_r. cbn [app].
      rewrite (Nat.add_1_r (length stations)), Nat.add_succ_r. reflexivity.
    + apply (IH _ _ f); [|done|cbn in Hf; lia].
      by rewrite Hg, og_resume_skip.
Qed.


End pipeline_facts.

Section pipeline_runs.
Import Splitter Decoder Callers Samples MoreSamples.

(** X14. When every line that decodes is a record with [parameter],
    [value], [unit] and a [date] that has [utc], [process_file] returns the
    number of lines that decode. The stores have received one station and
    one measurement per such line, in line order, each measurement with the
    id its station was given, the record's own [parameter], [value], [unit]
    and [date.utc], and the record's [averagingPeriod] or the empty string;
    and the body has been closed. *)
Theorem process_file_counts scan_once client object_name body lines fuel :
  client FETCHES_BUCKET object_name = Ok body →
  lines_of body object_name = Ok lines →
  Forall complete (omap (json_loads scan_once) lines) →
  (length lines < fuel)%nat →
  ∃ g,
    process_file scan_once keep_station keep_row fuel object_name client [] []
    = Some (Ok (length (omap (json_loads scan_once) lines)),
            (g, station_of <$> omap (json_loads scan_once) lines,
             rows_of 0 (omap (json_loads scan_once) lines)))
    ∧ og_frame g = Finished ∧ body_released g.
Proof.
  intros Hc Hl Hall Hf. eexists. split_and!.
  - unfold process_file.
    apply (process_loop_complete scan_once client FETCHES_BUCKET object_name
             body lines fuel _ Created [] [] 0%nat); [|done..].
    by apply og_next_created.
  - reflexivity.
  - intros b [= <-]. reflexivity.
Qed.

Lemma process_file_counts_witness :
  ∃ g,
    process_file scan_samples keep_station keep_row 4
      "realtime/x.ndjson" (λ _ _, Ok (body_of [complete_line; "{oops"; complete_line]))
      [] []
    = Some (Ok 2%nat,
            (g, [station_of (JObject complete_record);
                 station_of (JObject complete_record)],
             [row_of 0 (JObject complete_record);
              row_of 1 (JObject complete_record)]))
    ∧ body_released g.
Proof.
  assert (Hcomplete : complete (JObject complete_record)).
  { exists complete_record, {[ "utc" := JString "2018-06-06T23:00:00.000Z" ]}.
    split_and!; try reflexivity; by eexists. }
  destruct (process_file_counts scan_samples
              (λ _ _, Ok (body_of [complete_line; "{oops"; complete_line]))
              "realtime/x.ndjson"
              (body_of [complete_line; "{oops"; complete_line])
              (with_newline <$> [complete_line; "{oops"; complete_line]) 4
              eq_refl eq_refl)
    as (g & E & _ & Hrel).
  - change (Forall complete [JObject complete_record; JObject complete_record]).
    by repeat constructor.
  - cbn. lia.
  - exists g. split; [exact E|exact Hrel].
Defined.





Lemma get_jsons_from_object_yields_witness :
  ∃ g,
    og_list scan_literals 4
      (get_jsons_from_object "openaq-fetches" "realtime/x.ndjson"
         (λ _ _, Ok three_lines))
    = Some (Ok [JInt 1; JInt 2], g)
    ∧ body_released g.
Proof.
  destruct (get_jsons_from_object_yields scan_literals (λ _ _, Ok three_lines)
              "openaq-fetches" "realtime/x.ndjson" three_lines
              (text_lines three_lines) 4 eq_refl eq_refl (le_n 4))
    as (g & E & _ & Hrel & _).
  exists g. split; [exact E|exact Hrel].
Defined.

End pipeline_runs.
